(** * mcp-voicevox-server: a shallow embedding of [src/server.py]

    The server is a protocol adapter: three tool handlers ([list_speakers],
    [save_audio], [speak_text]) and an engine lifecycle guard
    ([ensure_engine_running]) in front of an HTTP text-to-speech engine.

    Modelling choices, in the order of the file:
    - Python [str] is a Rocq [string] holding the UTF-8 encoding; the
      operations that count characters ([text[:20]], [len(text)]) count
      UTF-8 lead bytes.  [bytes] is [list byte].
    - Python [float] is a binary64 primitive float; the chained
      comparisons of the handlers are IEEE comparisons ([PrimFloat.leb]),
      so NaN and the infinities are handled as Python handles them.
    - [pathlib.Path] is modelled after CPython 3.12's [PurePosixPath]
      (root and tail, [name], [suffix], [with_suffix], [parent], [__str__]).
    - Effects are explicit: a handler is a function from a [World] (file
      system and the log of every external call made so far) to a result
      and a new world, inside a small exception-and-state monad.  What the
      engine, the operating system and the child processes answer is
      decided by an [Env], which sees the request and the log.
    - Exceptions are values of [exn]; only [Exception] subclasses are
      modelled (the handlers do not catch [BaseException] either).

    Limits of the model: paths are POSIX paths; a file-system call that
    fails changes nothing (no partially created directory, no partially
    written file); child processes do not touch the modelled files; the
    timeouts of the requests are recorded but time itself is not
    modelled. *)

From Stdlib Require Import ZArith String Ascii List Bool Floats.PrimFloat.
From Stdlib Require Import Strings.Byte.
From stdpp Require Import gmap strings list pretty.

Set Warnings "-inexact-float,-register-all".
Local Open Scope Z_scope.

(** ** Python strings *)

Module pystr.

(** The line feed of ["\n"]. *)
Definition nl : string := String "010"%char "".

(** [len(s)] in bytes. *)
Definition len (s : string) : nat := String.length s.

(** [s[n:]] for [n >= 0]. *)
Fixpoint drop (n : nat) (s : string) : string :=
  match n, s with
  | O, _ => s
  | S n', String _ r => drop n' r
  | S _, EmptyString => EmptyString
  end.

(** [s[:n]] for [n >= 0]. *)
Fixpoint take (n : nat) (s : string) : string :=
  match n, s with
  | O, _ => EmptyString
  | S n', String c r => String c (take n' r)
  | S _, EmptyString => EmptyString
  end.

(** [s[i:j]] for [0 <= i <= j]. *)
Definition slice (i j : nat) (s : string) : string := take (j - i) (drop i s).

(** [s[:-k]] for [k > 0]. *)
Definition drop_last (k : nat) (s : string) : string := take (len s - k) s.

(** [c in s] for a one-character [c]. *)
Fixpoint contains (c : ascii) (s : string) : bool :=
  match s with
  | EmptyString => false
  | String x r => if Ascii.eqb x c then true else contains c r
  end.

(** [s.rfind(c)] for a one-character [c]; [None] stands for [-1]. *)
Fixpoint rfind (c : ascii) (s : string) : option nat :=
  match s with
  | EmptyString => None
  | String x r =>
      match rfind c r with
      | Some j => Some (S j)
      | None => if Ascii.eqb x c then Some O else None
      end
  end.

Definition py_rfind (c : ascii) (s : string) : Z :=
  match rfind c s with Some j => Z.of_nat j | None => -1 end.

(** [s.startswith(c)] for a one-character [c]. *)
Definition startswith (c : ascii) (s : string) : bool :=
  match s with String x _ => Ascii.eqb x c | EmptyString => false end.

(** [s.split(c)] for a one-character separator: never the empty list. *)
Fixpoint split (c : ascii) (s : string) : list string :=
  match s with
  | EmptyString => [EmptyString]
  | String x r =>
      if Ascii.eqb x c then EmptyString :: split c r
      else match split c r with
           | h :: t => String x h :: t
           | [] => [String x EmptyString]
           end
  end.

(** [sep.join(l)]. *)
Definition join (sep : string) (l : list string) : string := String.concat sep l.

(** [c.lower()] on one byte.  Only the ASCII letters change: the bytes
    of a multi-byte UTF-8 sequence are left alone.  The handlers compare
    a lowered string with [".wav"] only, and no non-ASCII character
    lowers to one of [.], [w], [a], [v], so that comparison is the one
    Python makes. *)
Definition lower_ascii (c : ascii) : ascii :=
  let n := nat_of_ascii c in
  if (Nat.leb 65 n && Nat.leb n 90)%bool then ascii_of_nat (n + 32) else c.

Fixpoint lower (s : string) : string :=
  match s with
  | EmptyString => EmptyString
  | String c r => String (lower_ascii c) (lower r)
  end.

(** A byte [10xxxxxx] continues a UTF-8 sequence; every other byte
    starts a character. *)
Definition is_continuation (c : ascii) : bool :=
  match c with Ascii _ _ _ _ _ _ b6 b7 => (b7 && negb b6)%bool end.

(** [len(s)] in characters. *)
Fixpoint char_len (s : string) : nat :=
  match s with
  | EmptyString => O
  | String c r => if is_continuation c then char_len r else S (char_len r)
  end.

(** [s[:n]] in characters. *)
Fixpoint char_take (n : nat) (s : string) : string :=
  match s with
  | EmptyString => EmptyString
  | String c r =>
      if is_continuation c then String c (char_take n r)
      else match n with
           | O => EmptyString
           | S n' => String c (char_take n' r)
           end
  end.

End pystr.

(** ** Exceptions and results *)

(** The exception classes the handlers tell apart, and [OtherException]
    for every other subclass of [Exception], with its class name. *)
Inductive ExnKind : Type :=
| ConnectError
| HTTPStatusError (status_code : Z)
| PermissionError
| FileNotFoundError
| CalledProcessError (returncode : Z)
| OtherException (class_name : string).

(** An exception value: its class and [str(e)]. *)
Record exn : Type := mkExn { kind : ExnKind; message : string }.

(** [type(e).__name__]. *)
Definition type_name (e : exn) : string :=
  match kind e with
  | ConnectError => "ConnectError"
  | HTTPStatusError _ => "HTTPStatusError"
  | PermissionError => "PermissionError"
  | FileNotFoundError => "FileNotFoundError"
  | CalledProcessError _ => "CalledProcessError"
  | OtherException n => n
  end.

Definition ValueError (msg : string) : exn := mkExn (OtherException "ValueError") msg.
Definition TypeError (msg : string) : exn := mkExn (OtherException "TypeError") msg.
Definition KeyError (msg : string) : exn := mkExn (OtherException "KeyError") msg.
Definition AttributeError (msg : string) : exn := mkExn (OtherException "AttributeError") msg.

(** What a Python expression evaluates to: a value, or a raised exception. *)
Inductive Result (A : Type) : Type :=
| Ok (a : A)
| Raise (e : exn).
Arguments Ok {A} a.
Arguments Raise {A} e.

(** ** pathlib, POSIX flavour *)

Module pathlib.
Import pystr.

(** A parsed path: [root] is [""], ["/"] or ["//"]; [tail] holds the
    components.  The drive is always empty on POSIX. *)
Record PurePath : Type := mkPath { root : string; tail : list string }.

(** [posixpath.splitroot], without the drive. *)
Definition splitroot (p : string) : string * string :=
  if negb (String.eqb (take 1 p) "/") then ("", p)
  else if (negb (String.eqb (slice 1 2 p) "/") || String.eqb (slice 2 3 p) "/")%bool
       then ("/", drop 1 p)
       else (take 2 p, drop 2 p).

(** The [if x and x != '.'] of [_parse_path]. *)
Definition keep_component (x : string) : bool :=
  (negb (String.eqb x "") && negb (String.eqb x "."))%bool.

(** [PurePath._parse_path]. *)
Definition parse_path (path : string) : PurePath :=
  if String.eqb path "" then mkPath "" []
  else
    let '(rt, rel) := splitroot path in
    mkPath rt (List.filter keep_component (split "/" rel)).

(** [Path(s)]. *)
Definition Path (s : string) : PurePath := parse_path s.

(** [str(p)]: [_format_parsed_parts(drv, root, tail) or '.']. *)
Definition path_str (p : PurePath) : string :=
  let s := root p +:+ join "/" (tail p) in
  if String.eqb s "" then "." else s.

(** [p.name]. *)
Definition name (p : PurePath) : string := List.last (tail p) "".

(** [p.suffix]. *)
Definition suffix (p : PurePath) : string :=
  let nm := name p in
  let i := py_rfind "." nm in
  if ((0 <? i) && (i <? Z.of_nat (len nm) - 1))%bool then drop (Z.to_nat i) nm else "".

(** [p.stem]. *)
Definition stem (p : PurePath) : string :=
  let nm := name p in
  let i := py_rfind "." nm in
  if ((0 <? i) && (i <? Z.of_nat (len nm) - 1))%bool then take (Z.to_nat i) nm else nm.

(** [repr(p)], as [with_suffix] prints it in its error. *)
Definition path_repr (p : PurePath) : string := "PosixPath('" +:+ path_str p +:+ "')".

(** [p.with_suffix(sfx)]. *)
Definition with_suffix (p : PurePath) (sfx : string) : Result PurePath :=
  if contains "/" sfx then Raise (ValueError ("Invalid suffix '" +:+ sfx +:+ "'"))
  else if ((negb (String.eqb sfx "") && negb (startswith "." sfx)) || String.eqb sfx ".")%bool
  then Raise (ValueError ("Invalid suffix '" +:+ sfx +:+ "'"))
  else
    let nm := name p in
    if String.eqb nm "" then Raise (ValueError (path_repr p +:+ " has an empty name"))
    else
      let old_suffix := suffix p in
      let nm' := if String.eqb old_suffix "" then nm +:+ sfx
                 else drop_last (len old_suffix) nm +:+ sfx in
      Ok (mkPath (root p) (List.removelast (tail p) ++ [nm'])).

(** [p.parent]. *)
Definition parent (p : PurePath) : PurePath :=
  match tail p with
  | [] => p
  | _ => mkPath (root p) (List.removelast (tail p))
  end.

(** [posixpath.join(a, b)]. *)
Definition posix_join (a b : string) : string :=
  if startswith "/" b then b
  else if (String.eqb a "" || startswith "/" (String.rev a))%bool then a +:+ b
  else a +:+ "/" +:+ b.

(** [p / seg]. *)
Definition joinpath (p : PurePath) (seg : string) : PurePath :=
  parse_path (posix_join (path_str p) seg).

(** The path itself and every ancestor that has a component left: what
    [mkdir(parents=True, exist_ok=True)] turns into directories. *)
Fixpoint lineage_go (rt : string) (rev_tail : list string) : list PurePath :=
  match rev_tail with
  | [] => []
  | _ :: r => mkPath rt (List.rev rev_tail) :: lineage_go rt r
  end.

Definition lineage (p : PurePath) : list PurePath := lineage_go (root p) (List.rev (tail p)).

End pathlib.


Import pystr pathlib.

(** ** JSON values and the Python operations the handlers apply to them *)

Definition bytes : Type := list byte.

(** What [response.json()] returns.  A [JDict] keeps its keys in insertion
    order, as a Python [dict] does. *)
Inductive json : Type :=
| JNull
| JBool (b : bool)
| JInt (z : Z)
| JFloat (f : float)
| JStr (s : string)
| JList (l : list json)
| JDict (d : list (string * json)).

(** The name of the Python type of a value, for the interpreter's messages. *)
Definition py_type (j : json) : string :=
  match j with
  | JNull => "NoneType"
  | JBool _ => "bool"
  | JInt _ => "int"
  | JFloat _ => "float"
  | JStr _ => "str"
  | JList _ => "list"
  | JDict _ => "dict"
  end.

Fixpoint dict_get (d : list (string * json)) (k : string) : option json :=
  match d with
  | [] => None
  | (k', v) :: r => if String.eqb k' k then Some v else dict_get r k
  end.

(** [d[k] = v] on a dict: an existing key keeps its place. *)
Fixpoint dict_set (d : list (string * json)) (k : string) (v : json) : list (string * json) :=
  match d with
  | [] => [(k, v)]
  | (k', v') :: r => if String.eqb k' k then (k, v) :: r else (k', v') :: dict_set r k v
  end.

(** The characters of a string, each as a string of its own. *)
Fixpoint chars_go (cur : option string) (s : string) : list string :=
  match s with
  | EmptyString => match cur with Some c => [String.rev c] | None => [] end
  | String c r =>
      if is_continuation c
      then chars_go (Some (String c (default EmptyString cur))) r
      else match cur with
           | Some x => String.rev x :: chars_go (Some (String c EmptyString)) r
           | None => chars_go (Some (String c EmptyString)) r
           end
  end.

Definition chars (s : string) : list string := chars_go None s.

(** [for x in j]. *)
Definition py_iter (j : json) : Result (list json) :=
  match j with
  | JList l => Ok l
  | JDict d => Ok (List.map (fun kv => JStr (fst kv)) d)
  | JStr s => Ok (List.map JStr (chars s))
  | _ => Raise (TypeError ("'" +:+ py_type j +:+ "' object is not iterable"))
  end.

(** [j[k]] for a string key [k]. *)
Definition py_getitem (j : json) (k : string) : Result json :=
  match j with
  | JDict d => match dict_get d k with
               | Some v => Ok v
               | None => Raise (KeyError ("'" +:+ k +:+ "'"))
               end
  | JList _ => Raise (TypeError "list indices must be integers or slices, not str")
  | JStr _ => Raise (TypeError "string indices must be integers, not 'str'")
  | _ => Raise (TypeError ("'" +:+ py_type j +:+ "' object is not subscriptable"))
  end.

(** [j.get(k, dflt)]. *)
Definition py_get (j : json) (k : string) (dflt : json) : Result json :=
  match j with
  | JDict d => Ok (default dflt (dict_get d k))
  | _ => Raise (AttributeError ("'" +:+ py_type j +:+ "' object has no attribute 'get'"))
  end.

(** [j[k] = v] for a string key [k]. *)
Definition py_setitem (j : json) (k : string) (v : json) : Result json :=
  match j with
  | JDict d => Ok (JDict (dict_set d k v))
  | JList _ => Raise (TypeError "list indices must be integers or slices, not str")
  | _ => Raise (TypeError ("'" +:+ py_type j +:+ "' object does not support item assignment"))
  end.

(** The text renderings of the Python runtime that are not modelled here:
    the shortest round-trip printing of a float, the [repr] of a list or a
    dict, and the messages of two library exceptions. *)
Record PyText : Type := {
  repr_float : float -> string;
  repr_container : json -> string;
  CalledProcessError_str : list string -> Z -> string;
  HTTPStatusError_str : string -> Z -> string;
}.

(** [f"{j}"]. *)
Definition py_format (T : PyText) (j : json) : string :=
  match j with
  | JNull => "None"
  | JBool true => "True"
  | JBool false => "False"
  | JInt z => pretty z
  | JFloat f => repr_float T f
  | JStr s => s
  | JList _ | JDict _ => repr_container T j
  end.

(** ** The outside world *)

(** An HTTP request as [httpx] sends it. *)
Record Request : Type := mkRequest {
  method : string;
  url : string;
  params : list (string * json);
  json_body : option json;
  timeout : float;
}.

(** An HTTP response: the status, the body, and what [response.json()]
    makes of the body (a value, or the decoder's exception). *)
Record Response : Type := mkResponse {
  status_code : Z;
  content : bytes;
  decoded : Result json;
}.

(** Every call that leaves the process is logged as one event. *)
Inductive Event : Type :=
| EvHttp (req : Request)
| EvPrintStderr (msg : string)
| EvSleep (seconds : Z)
| EvExists (path : string)
| EvRun (argv : list string) (cwd : option string)
| EvMkdir (path : string)
| EvWriteBytes (path : string) (data : bytes)
| EvTempCreate (path : string)
| EvTempWrite (path : string) (data : bytes)
| EvUnlink (path : string).

Definition is_run (ev : Event) : bool := match ev with EvRun _ _ => true | _ => false end.

(** What the world answers.  Each answer may depend on the call and on
    the whole log of earlier calls (newest first).
    - [http_send]: the response, or the transport's exception;
    - [os_fault]: the exception with which a file-system call fails, if
      it fails;
    - [proc_run]: the exit status of a child process, or the exception
      raised when it cannot be launched;
    - [temp_stem]: the unique name picked for a temporary file, without
      its suffix. *)
Record Env : Type := {
  http_send : Request -> list Event -> Result Response;
  os_fault : Event -> list Event -> option exn;
  proc_run : list string -> option string -> list Event -> Result Z;
  temp_stem : list Event -> string;
}.

(** The state a handler runs in: regular files with their contents,
    directories, and the log, newest event first. *)
Record World : Type := mkWorld {
  files : gmap string bytes;
  dirs : gset string;
  trace : list Event;
}.

Definition log (ev : Event) (w : World) : World :=
  mkWorld (files w) (dirs w) (ev :: trace w).

(** The process-wide configuration read from the environment at start. *)
Record Config : Type := {
  VOICEVOX_URL : string;
  SPEAKER_ID : Z;
  AUTO_START_ENGINE : bool;
  PROJECT_DIR : PurePath;
}.

(** ** The monad of handlers: state and exceptions *)

Definition M (A : Type) : Type := World -> Result A * World.

Definition ret {A} (a : A) : M A := fun w => (Ok a, w).
Definition raise {A} (e : exn) : M A := fun w => (Raise e, w).
Definition bind {A B} (m : M A) (k : A -> M B) : M B :=
  fun w => match m w with
           | (Ok a, w') => k a w'
           | (Raise e, w') => (Raise e, w')
           end.
Definition lift {A} (r : Result A) : M A := fun w => (r, w).

Notation "x <- c ;; k" := (bind c (fun x => k))
  (at level 100, c at next level, right associativity).
Notation "c ;;; k" := (bind c (fun _ => k))
  (at level 100, right associativity).

(** [try: body except Exception as e: handler(e)]. *)
Definition try_except {A} (body : M A) (handler : exn -> M A) : M A :=
  fun w => match body w with
           | (Ok a, w') => (Ok a, w')
           | (Raise e, w') => handler e w'
           end.

(** [try: body finally: cleanup]: the cleanup runs on both exits, and an
    exception of the cleanup replaces the outcome of the body. *)
Definition try_finally {A} (body : M A) (cleanup : M unit) : M A :=
  fun w => match body w with
           | (r, w') => match cleanup w' with
                        | (Ok _, w'') => (r, w'')
                        | (Raise e, w'') => (Raise e, w'')
                        end
           end.

(** Sequencing in [Result] alone, for the parts of a handler that touch
    nothing outside. *)
Definition rbind {A B} (r : Result A) (k : A -> Result B) : Result B :=
  match r with
  | Ok a => k a
  | Raise e => Raise e
  end.

Notation "x <~ c ;; k" := (rbind c (fun x => k))
  (at level 100, c at next level, right associativity).

(** ** The server *)

(** Lines 160-162 of [save_audio]: the output path with a [.wav] suffix. *)
Definition normalize_output_path (output_path : string) : Result PurePath :=
  let output_file := Path output_path in
  if negb (String.eqb (lower (suffix output_file)) ".wav")
  then with_suffix output_file ".wav"
  else Ok output_file.

Section Server.

Variable T : PyText.
Variable env : Env.
Variable cfg : Config.

(** *** Calls that leave the process *)

(** [client.get(...)] and [client.post(...)]. *)
Definition send (req : Request) : M Response :=
  fun w => (http_send env req (trace w), log (EvHttp req) w).

(** [response.raise_for_status()]: anything but 2xx raises. *)
Definition raise_for_status (req : Request) (r : Response) : M unit :=
  if ((200 <=? status_code r) && (status_code r <=? 299))%bool then ret tt
  else raise (mkExn (HTTPStatusError (status_code r))
                    (HTTPStatusError_str T (url req) (status_code r))).

(** [response.json()]. *)
Definition response_json (r : Response) : M json := lift (decoded r).

(** [print(msg, file=sys.stderr)]. *)
Definition print_stderr (msg : string) : M unit :=
  fun w => (Ok tt, log (EvPrintStderr msg) w).

(** [time.sleep(n)]. *)
Definition sleep (n : Z) : M unit :=
  fun w => (Ok tt, log (EvSleep n) w).

(** [p.exists()]: [False] for a path that is not there; an [OSError]
    that pathlib does not ignore (a parent directory that may not be
    searched, say) is raised again, and it is the environment that
    picks it. *)
Definition path_exists (p : PurePath) : M bool :=
  fun w =>
    let s := path_str p in
    match os_fault env (EvExists s) (trace w) with
    | Some e => (Raise e, log (EvExists s) w)
    | None =>
        (Ok (bool_decide (is_Some (files w !! s)) || bool_decide (s ∈ dirs w))%bool,
         log (EvExists s) w)
    end.

(** A file-system call: it fails with the exception the environment
    picks and then changes nothing, or it has its effect. *)
Definition os_call (ev : Event) (effect : World -> World) : M unit :=
  fun w =>
    match os_fault env ev (trace w) with
    | Some e => (Raise e, log ev w)
    | None => (Ok tt, log ev (effect w))
    end.

(** [p.mkdir(parents=True, exist_ok=True)]. *)
Definition mkdir_parents (p : PurePath) : M unit :=
  os_call (EvMkdir (path_str p))
    (fun w => mkWorld (files w)
                      (dirs w ∪ list_to_set (path_str <$> lineage p))
                      (trace w)).

(** [p.write_bytes(data)]: creates or truncates. *)
Definition write_bytes (p : PurePath) (data : bytes) : M unit :=
  os_call (EvWriteBytes (path_str p) data)
    (fun w => mkWorld (<[path_str p := data]> (files w)) (dirs w) (trace w)).

(** [os.unlink(path)]. *)
Definition unlink (path : string) : M unit :=
  os_call (EvUnlink path)
    (fun w => mkWorld (delete path (files w)) (dirs w) (trace w)).

(** [tempfile.NamedTemporaryFile(suffix=sfx, delete=False)]: an empty
    file under a name of the environment's choosing. *)
Definition NamedTemporaryFile (sfx : string) : M string :=
  fun w =>
    let path := temp_stem env (trace w) +:+ sfx in
    match os_fault env (EvTempCreate path) (trace w) with
    | Some e => (Raise e, log (EvTempCreate path) w)
    | None => (Ok path,
               log (EvTempCreate path)
                   (mkWorld (<[path := []]> (files w)) (dirs w) (trace w)))
    end.

(** [f.write(data)] followed by the close at the end of the [with]. *)
Definition temp_write (path : string) (data : bytes) : M unit :=
  os_call (EvTempWrite path data)
    (fun w => mkWorld (<[path := data]> (files w)) (dirs w) (trace w)).

(** [subprocess.run(argv, cwd=cwd, check=check)]. *)
Definition subprocess_run (argv : list string) (cwd : option string) (check : bool) : M Z :=
  fun w =>
    let w' := log (EvRun argv cwd) w in
    match proc_run env argv cwd (trace w) with
    | Raise e => (Raise e, w')
    | Ok code =>
        if (check && negb (code =? 0))%bool
        then (Raise (mkExn (CalledProcessError code) (CalledProcessError_str T argv code)), w')
        else (Ok code, w')
    end.

(** *** Engine lifecycle (lines 29-78) *)

(** The availability probe, lines 32-33. *)
Definition version_request : Request :=
  mkRequest "GET" (VOICEVOX_URL cfg +:+ "/version") [] None 2.0.

Definition is_engine_running : M bool :=
  try_except
    (response <- send version_request ;;
     ret (status_code response =? 200))
    (fun _ => ret false).

Definition start_engine : M bool :=
  let compose_file := joinpath (PROJECT_DIR cfg) "docker-compose.yml" in
  found <- path_exists compose_file ;;
  if negb found then
    (print_stderr "docker-compose.yml not found, skipping auto-start" ;;;
     ret false)
  else
    try_except
      (subprocess_run ["docker"; "compose"; "up"; "-d"]
                      (Some (path_str (PROJECT_DIR cfg))) true ;;;
       ret true)
      (fun e =>
         match kind e with
         | CalledProcessError _ =>
             print_stderr ("Failed to start VOICEVOX Engine: " +:+ message e) ;;;
             ret false
         | FileNotFoundError =>
             print_stderr "docker command not found" ;;;
             ret false
         | _ => raise e
         end).

(** The body of [for i in range(n)]: [true] when the loop left through
    its [return]. *)
Fixpoint wait_for_engine (n : nat) : M bool :=
  match n with
  | O => ret false
  | S n' =>
      sleep 1 ;;;
      up <- is_engine_running ;;
      if up then
        (print_stderr "VOICEVOX Engine started successfully" ;;;
         ret true)
      else wait_for_engine n'
  end.

Definition ensure_engine_running : M unit :=
  if negb (AUTO_START_ENGINE cfg) then ret tt
  else
    up <- is_engine_running ;;
    if up then ret tt
    else
      print_stderr "VOICEVOX Engine not running, starting..." ;;;
      started <- start_engine ;;
      if started then
        (ready <- wait_for_engine 30 ;;
         if ready then ret tt
         else print_stderr "VOICEVOX Engine started but not responding yet")
      else ret tt.

(** *** Tool: list_speakers (lines 82-111) *)

(** The inner loop, lines 99-102. *)
Fixpoint style_lines (name : json) (styles : list json) : Result (list string) :=
  match styles with
  | [] => Ok []
  | style :: r =>
      style_name <~ py_getitem style "name" ;;
      style_id <~ py_getitem style "id" ;;
      rest <~ style_lines name r ;;
      Ok (("- " +:+ py_format T name +:+ "（" +:+ py_format T style_name
           +:+ "）: speaker_id=" +:+ py_format T style_id) :: rest)
  end.

(** The outer loop, lines 96-102. *)
Fixpoint speaker_lines (speakers : list json) : Result (list string) :=
  match speakers with
  | [] => Ok []
  | speaker :: r =>
      name <~ py_getitem speaker "name" ;;
      styles <~ py_get speaker "styles" (JList []) ;;
      styles <~ py_iter styles ;;
      here <~ style_lines name styles ;;
      rest <~ speaker_lines r ;;
      Ok (here ++ rest)
  end.

(** The message of the three [except httpx.ConnectError] clauses. *)
Definition connect_error_message : string :=
  "エラー: VOICEVOX Engine (" +:+ VOICEVOX_URL cfg
  +:+ ") に接続できません。Dockerコンテナが起動しているか確認してください。".

(** The message of the three [except httpx.HTTPStatusError] clauses. *)
Definition status_error_message (code : Z) : string :=
  "エラー: VOICEVOX API エラー (status: " +:+ pretty code +:+ ")".

(** The message of the three [except Exception] clauses. *)
Definition other_error_message (e : exn) : string :=
  "エラー: " +:+ type_name e +:+ ": " +:+ message e.

(** The request of lines 90-91. *)
Definition speakers_request : Request :=
  mkRequest "GET" (VOICEVOX_URL cfg +:+ "/speakers") [] None 10.0.

Definition list_speakers : M string :=
  try_except
    (response <- send speakers_request ;;
     raise_for_status speakers_request response ;;;
     speakers <- response_json response ;;
     speakers <- lift (py_iter speakers) ;;
     lines <- lift (speaker_lines speakers) ;;
     ret ("利用可能なスピーカー一覧:" +:+ nl +:+ join nl lines))
    (fun e =>
       match kind e with
       | ConnectError => ret connect_error_message
       | HTTPStatusError code => ret (status_error_message code)
       | _ => ret (other_error_message e)
       end).

(** *** Validation and synthesis, shared by save_audio and speak_text *)

(** Lines 150-157 and 239-246: [Some msg] is the early [return msg]. *)
Definition check_ranges (speed pitch intonation volume : float) : option string :=
  if negb ((0.5 <=? speed) && (speed <=? 2.0))%float then
    Some ("エラー: speedは0.5から2.0の範囲で指定してください (指定値: "
          +:+ repr_float T speed +:+ ")")
  else if negb ((-0.15 <=? pitch) && (pitch <=? 0.15))%float then
    Some ("エラー: pitchは-0.15から0.15の範囲で指定してください (指定値: "
          +:+ repr_float T pitch +:+ ")")
  else if negb ((0.0 <=? intonation) && (intonation <=? 2.0))%float then
    Some ("エラー: intonationは0.0から2.0の範囲で指定してください (指定値: "
          +:+ repr_float T intonation +:+ ")")
  else if negb ((0.0 <=? volume) && (volume <=? 2.0))%float then
    Some ("エラー: volumeは0.0から2.0の範囲で指定してください (指定値: "
          +:+ repr_float T volume +:+ ")")
  else None.

(** The request of lines 167-170 and 251-254. *)
Definition audio_query_request (text : string) (speaker_id : Z) : Request :=
  mkRequest "POST" (VOICEVOX_URL cfg +:+ "/audio_query")
            [("text", JStr text); ("speaker", JInt speaker_id)] None 60.0.

(** The request of lines 181-185 and 265-269. *)
Definition synthesis_request (speaker_id : Z) (audio_query : json) : Request :=
  mkRequest "POST" (VOICEVOX_URL cfg +:+ "/synthesis")
            [("speaker", JInt speaker_id)] (Some audio_query) 60.0.

(** Lines 175-178 and 259-262. *)
Definition apply_settings (audio_query : json) (speed pitch intonation volume : float)
  : Result json :=
  q <~ py_setitem audio_query "speedScale" (JFloat speed) ;;
  q <~ py_setitem q "pitchScale" (JFloat pitch) ;;
  q <~ py_setitem q "intonationScale" (JFloat intonation) ;;
  py_setitem q "volumeScale" (JFloat volume).

(** Lines 165-187 and 249-271: the two calls to the engine. *)
Definition synthesize (text : string) (speaker_id : Z)
           (speed pitch intonation volume : float) : M bytes :=
  let query_request := audio_query_request text speaker_id in
  query_response <- send query_request ;;
  raise_for_status query_request query_response ;;;
  audio_query <- response_json query_response ;;
  audio_query <- lift (apply_settings audio_query speed pitch intonation volume) ;;
  let synth_request := synthesis_request speaker_id audio_query in
  synthesis_response <- send synth_request ;;
  raise_for_status synth_request synthesis_response ;;;
  ret (content synthesis_response).

(** *** Tool: save_audio (lines 115-202) *)

Definition save_audio (text output_path : string) (speaker : option Z)
           (speed pitch intonation volume : option float) : M string :=
  let speaker_id := default (SPEAKER_ID cfg) speaker in
  let speed := default 1.0%float speed in
  let pitch := default 0.0%float pitch in
  let intonation := default 1.0%float intonation in
  let volume := default 1.0%float volume in
  match check_ranges speed pitch intonation volume with
  | Some err => ret err
  | None =>
      output_file <- lift (normalize_output_path output_path) ;;
      try_except
        (audio_data <- synthesize text speaker_id speed pitch intonation volume ;;
         mkdir_parents (parent output_file) ;;;
         write_bytes output_file audio_data ;;;
         ret ("音声ファイルを保存しました: " +:+ path_str output_file))
        (fun e =>
           match kind e with
           | ConnectError => ret connect_error_message
           | HTTPStatusError code => ret (status_error_message code)
           | PermissionError =>
               ret ("エラー: ファイルの書き込み権限がありません: " +:+ path_str output_file)
           | _ => ret (other_error_message e)
           end)
  end.

(** *** Tool: speak_text (lines 206-297) *)

Definition ffplay_argv (temp_path : string) : list string :=
  ["ffplay"; "-nodisp"; "-autoexit"; "-loglevel"; "quiet"; temp_path].

(** Lines 278-284: the player inside [try ... finally]. *)
Definition play_and_unlink (temp_path : string) : M unit :=
  try_finally
    (subprocess_run (ffplay_argv temp_path) None true ;;; ret tt)
    (unlink temp_path).

(** Lines 274-284: the temporary file, the player, the cleanup. *)
Definition play (audio_data : bytes) : M unit :=
  temp_path <- (f <- NamedTemporaryFile ".wav" ;;
                temp_write f audio_data ;;;
                ret f) ;;
  play_and_unlink temp_path.

(** [f"「{text[:20]}{'...' if len(text) > 20 else ''}」を再生しました"]. *)
Definition played_message (text : string) : string :=
  "「" +:+ char_take 20 text
  +:+ (if Nat.ltb 20 (char_len text) then "..." else "")
  +:+ "」を再生しました".

Definition speak_text (text : string) (speaker : option Z)
           (speed pitch intonation volume : option float) : M string :=
  let speaker_id := default (SPEAKER_ID cfg) speaker in
  let speed := default 1.0%float speed in
  let pitch := default 0.0%float pitch in
  let intonation := default 1.0%float intonation in
  let volume := default 1.0%float volume in
  match check_ranges speed pitch intonation volume with
  | Some err => ret err
  | None =>
      try_except
        (audio_data <- synthesize text speaker_id speed pitch intonation volume ;;
         play audio_data ;;;
         ret (played_message text))
        (fun e =>
           match kind e with
           | ConnectError => ret connect_error_message
           | HTTPStatusError code => ret (status_error_message code)
           | FileNotFoundError =>
               ret "エラー: ffplayが見つかりません。FFmpegをインストールしてください。"
           | CalledProcessError code =>
               ret ("エラー: 音声再生に失敗しました (code: " +:+ pretty code +:+ ")")
           | _ => ret (other_error_message e)
           end)
  end.

End Server.

(** ** The documented parameter domains (docstrings, lines 131-134) *)

Inductive Param : Type := Speed | Pitch | Intonation | Volume.

Record VoiceParameters : Type := mkVoice {
  speed : float;
  pitch : float;
  intonation : float;
  volume : float;
}.

Definition value (p : Param) (v : VoiceParameters) : float :=
  match p with
  | Speed => speed v
  | Pitch => pitch v
  | Intonation => intonation v
  | Volume => volume v
  end.

Definition param_name (p : Param) : string :=
  match p with
  | Speed => "speed"
  | Pitch => "pitch"
  | Intonation => "intonation"
  | Volume => "volume"
  end.

Definition lower_bound (p : Param) : float :=
  match p with
  | Speed => 0.5
  | Pitch => -0.15
  | Intonation => 0.0
  | Volume => 0.0
  end.

Definition upper_bound (p : Param) : float :=
  match p with
  | Speed => 2.0
  | Pitch => 0.15
  | Intonation => 2.0
  | Volume => 2.0
  end.

(** The bounds as the messages print them. *)
Definition lower_text (p : Param) : string :=
  match p with
  | Speed => "0.5"
  | Pitch => "-0.15"
  | Intonation => "0.0"
  | Volume => "0.0"
  end.

Definition upper_text (p : Param) : string :=
  match p with
  | Speed => "2.0"
  | Pitch => "0.15"
  | Intonation => "2.0"
  | Volume => "2.0"
  end.

(** [x] lies in the closed interval of [p].  NaN lies in no interval. *)
Definition in_domain (p : Param) (x : float) : Prop :=
  (lower_bound p <=? x)%float = true /\ (x <=? upper_bound p)%float = true.

Definition in_domainb (p : Param) (x : float) : bool :=
  ((lower_bound p <=? x) && (x <=? upper_bound p))%float.

(** The defaults of the signature and of lines 140-147. *)
Definition default_value (p : Param) : float :=
  match p with
  | Speed => 1.0
  | Pitch => 0.0
  | Intonation => 1.0
  | Volume => 1.0
  end.

Definition resolve (speed pitch intonation volume : option float) : VoiceParameters :=
  mkVoice (default (default_value Speed) speed)
          (default (default_value Pitch) pitch)
          (default (default_value Intonation) intonation)
          (default (default_value Volume) volume).

(** An error string that names the parameter, its interval and the
    offending value. *)
Definition range_error_message (T : PyText) (p : Param) (x : float) : string :=
  "エラー: " +:+ param_name p +:+ "は" +:+ lower_text p +:+ "から" +:+ upper_text p
  +:+ "の範囲で指定してください (指定値: " +:+ repr_float T x +:+ ")".

(** The order in which the parameters are examined. *)
Definition validation_order : list Param := [Speed; Pitch; Intonation; Volume].

Definition position (p : Param) : nat :=
  match p with
  | Speed => 0
  | Pitch => 1
  | Intonation => 2
  | Volume => 3
  end.

Definition before (q p : Param) : Prop := (position q < position p)%nat.

(** The first parameter of [validation_order] outside its domain. *)
Definition first_violation (v : VoiceParameters) : option Param :=
  List.find (fun p => negb (in_domainb p (value p v))) validation_order.

(** ** A sample deployment, for the examples *)

Module Sample.

(** Float printing on the handful of values the examples use. *)
Definition text : PyText := {|
  repr_float := fun x =>
    if (x =? 2.5)%float then "2.5"
    else if (x =? 0.5)%float then "0.5"
    else if (x =? 3.0)%float then "3.0"
    else if (x =? 1.5)%float then "1.5"
    else "nan";
  repr_container := fun _ => "[...]";
  CalledProcessError_str := fun _ code =>
    "Command returned non-zero exit status " +:+ pretty code +:+ ".";
  HTTPStatusError_str := fun u code => "Error '" +:+ pretty code +:+ "' for url '" +:+ u +:+ "'";
|}.

Definition cfg : Config := {|
  VOICEVOX_URL := "http://localhost:50021";
  SPEAKER_ID := 8;
  AUTO_START_ENGINE := true;
  PROJECT_DIR := Path "/srv/voicevox";
|}.

Definition cfg_no_auto_start : Config := {|
  VOICEVOX_URL := "http://localhost:50021";
  SPEAKER_ID := 8;
  AUTO_START_ENGINE := false;
  PROJECT_DIR := Path "/srv/voicevox";
|}.

(** One speaker with two styles. *)
Definition catalog : json :=
  JList [JDict [("name", JStr "ずんだもん");
                ("styles", JList [JDict [("name", JStr "ノーマル"); ("id", JInt 3)];
                                  JDict [("name", JStr "あまあま"); ("id", JInt 1)]])]].

Definition payload : bytes := ["R"; "I"; "F"; "F"; x00; xff]%byte.

(** An engine that is up: it answers every request with 200, a fixed
    query object, the catalog, or the fixed audio payload. *)
Definition engine (req : Request) : Result Response :=
  if String.eqb (url req) "http://localhost:50021/audio_query" then
    Ok (mkResponse 200 [] (Ok (JDict [("speedScale", JFloat 1.0); ("kana", JStr "コンニチワ")])))
  else if String.eqb (url req) "http://localhost:50021/speakers" then
    Ok (mkResponse 200 [] (Ok catalog))
  else if String.eqb (url req) "http://localhost:50021/synthesis" then
    Ok (mkResponse 200 payload (Raise (ValueError "Expecting value: line 1 column 1 (char 0)")))
  else
    Ok (mkResponse 200 [] (Ok (JStr "0.14.0"))).

(** The player exits with [player_status], or is not installed. *)
Definition env_with (player : Result Z) : Env := {|
  http_send := fun req _ => engine req;
  os_fault := fun _ _ => None;
  proc_run := fun _ _ _ => player;
  temp_stem := fun _ => "/tmp/tmpk3v9x2";
|}.

Definition env : Env := env_with (Ok 0).

(** The engine cannot be reached. *)
Definition env_down : Env := {|
  http_send := fun _ _ => Raise (mkExn ConnectError "All connection attempts failed");
  os_fault := fun _ _ => None;
  proc_run := fun _ _ _ => Raise (mkExn FileNotFoundError "[Errno 2] No such file or directory: 'docker'");
  temp_stem := fun _ => "/tmp/tmpk3v9x2";
|}.

Definition w0 : World := mkWorld ∅ ∅ [].

End Sample.

(** ** Answers of the engine and the speaker catalog *)

(** A 2xx status. *)
Definition success (r : Response) : Prop := 200 <= status_code r <= 299.

(** The query object after lines 175-178. *)
Definition settings_applied (d : list (string * json)) (v : VoiceParameters)
  : list (string * json) :=
  dict_set (dict_set (dict_set (dict_set d "speedScale" (JFloat (speed v)))
                               "pitchScale" (JFloat (pitch v)))
                     "intonationScale" (JFloat (intonation v)))
           "volumeScale" (JFloat (volume v)).

(** The speaker catalog of the spec: speakers with a display name and
    styles, each style with a name and a numeric identifier. *)
Record Style : Type := mkStyle { style_name : string; style_id : Z }.
Record Speaker : Type := mkSpeaker { speaker_name : string; speaker_styles : list Style }.

(** A JSON object that carries a style (other fields are allowed). *)
Definition encodes_style (j : json) (st : Style) : Prop :=
  exists d, j = JDict d
            /\ dict_get d "name" = Some (JStr (style_name st))
            /\ dict_get d "id" = Some (JInt (style_id st)).

(** A JSON object that carries a speaker (other fields are allowed). *)
Definition encodes_speaker (j : json) (sp : Speaker) : Prop :=
  exists d jl, j = JDict d
               /\ dict_get d "name" = Some (JStr (speaker_name sp))
               /\ dict_get d "styles" = Some (JList jl)
               /\ Forall2 encodes_style jl (speaker_styles sp).

(** The (speaker, style) pairs of a catalog, in catalog order. *)
Definition pairs (catalog : list Speaker) : list (Speaker * Style) :=
  List.flat_map (fun sp => List.map (fun st => (sp, st)) (speaker_styles sp)) catalog.

(** The line of one pair: display name, style name, numeric identifier. *)
Definition pair_line (ps : Speaker * Style) : string :=
  "- " +:+ speaker_name (fst ps) +:+ "（" +:+ style_name (snd ps)
  +:+ "）: speaker_id=" +:+ pretty (style_id (snd ps)).

(** An event that is no request, or a request whose [speaker] query
    parameter is [speaker_id]. *)
Definition carries_speaker (speaker_id : Z) (ev : Event) : Prop :=
  match ev with
  | EvHttp req => dict_get (params req) "speaker" = Some (JInt speaker_id)
  | _ => True
  end.

(** ** What a computation adds to the log *)

(** Every event [m] logs satisfies [P]. *)
Definition only_adds {A} (P : Event -> Prop) (m : M A) : Prop :=
  forall w, exists evs, trace (snd (m w)) = evs ++ trace w /\ Forall P evs.

(** [m] logs [ev] first, and every later event satisfies [P]. *)
Definition starts_with {A} (ev : Event) (P : Event -> Prop) (m : M A) : Prop :=
  forall w, exists evs, trace (snd (m w)) = evs ++ ev :: trace w /\ Forall P evs.

(** ** Well-formed paths *)

(** A component as the parser leaves it: not empty, not [.], no slash. *)
Definition component_ok (x : string) : Prop :=
  x <> "" /\ x <> "." /\ contains "/" x = false.

(** The paths the parser produces. *)
Definition well_formed (p : PurePath) : Prop :=
  (root p = "" \/ root p = "/" \/ root p = "//") /\ Forall component_ok (tail p).

(** The normalization of [save_audio] as a function from path strings
    to path strings. *)
Definition normalize_str (output_path : string) : Result string :=
  p <~ normalize_output_path output_path ;; Ok (path_str p).

(** [path] with its last component renamed. *)
Definition rename (p : PurePath) (new_name : string) : PurePath :=
  mkPath (root p) (List.removelast (tail p) ++ [new_name]).

(** ** Counting and framing *)

Definition is_sleep (ev : Event) : bool := match ev with EvSleep _ => true | _ => false end.

(** The sleeps and the child processes of a log. *)
Definition count_sleeps (tr : list Event) : nat := length (List.filter is_sleep tr).
Definition count_runs (tr : list Event) : nat := length (List.filter is_run tr).

(** What [is_engine_running] returns when the log so far is [tr]. *)
Definition probe_answer (env : Env) (cfg : Config) (tr : list Event) : bool :=
  match http_send env (version_request cfg) tr with
  | Ok r => status_code r =? 200
  | Raise _ => false
  end.

(** The descriptor file of [start_engine], and its command. *)
Definition compose_file (cfg : Config) : PurePath :=
  joinpath (PROJECT_DIR cfg) "docker-compose.yml".

Definition docker_argv : list string := ["docker"; "compose"; "up"; "-d"].

(** The path names a regular file or a directory of the world. *)
Definition present (w : World) (path : string) : bool :=
  (bool_decide (is_Some (files w !! path)) || bool_decide (path ∈ dirs w))%bool.


(** [m] relates every world to the world it leaves. *)
Definition keeps {A} (R : World -> World -> Prop) (m : M A) : Prop :=
  forall w, R w (snd (m w)).

(** The file system is the same. *)
Definition same_fs (w w' : World) : Prop := files w' = files w /\ dirs w' = dirs w.

(** Every file but [path] is the same, and no directory is lost. *)
Definition same_files_but (path : string) (w w' : World) : Prop :=
  (forall f, f <> path -> files w' !! f = files w !! f) /\ dirs w ⊆ dirs w'.

(** [s.endswith(sfx)]. *)
Definition endswith (sfx s : string) : bool :=
  (Nat.leb (len sfx) (len s) && String.eqb (drop (len s - len sfx) s) sfx)%bool.

(** Every file whose name does not end in [.wav] is the same, and so
    are the directories. *)
Definition same_but_wav (w w' : World) : Prop :=
  (forall f, endswith ".wav" f = false -> files w' !! f = files w !! f)
  /\ dirs w' = dirs w.

(** An event that is no request to the engine. *)
Definition not_request (ev : Event) : Prop :=
  match ev with
  | EvHttp _ => False
  | _ => True
  end.

(** The keys of the voice settings, lines 175-178. *)
Definition scale_keys : list string :=
  ["speedScale"; "pitchScale"; "intonationScale"; "volumeScale"].

(** ** More sample deployments *)

Module Scenario.




(** A world in which the descriptor file of the project exists. *)
Definition w_project : World :=
  mkWorld {["/srv/voicevox/docker-compose.yml" := []]} {["/srv/voicevox"]} [].

End Scenario.

(** * Properties *)

(** ** Validation (C1, C8) *)

Lemma in_domainb_spec p x : in_domainb p x = true <-> in_domain p x.
Proof. unfold in_domainb, in_domain. rewrite andb_true_iff. tauto. Qed.

Lemma in_domainb_false p x : in_domainb p x = false <-> ~ in_domain p x.
Proof.
  rewrite <- in_domainb_spec. destruct (in_domainb p x); split; congruence.
Qed.

(** [check_ranges] is the message of the first violation, if any. *)
Lemma check_ranges_first_violation T v :
  check_ranges T (speed v) (pitch v) (intonation v) (volume v)
  = (fun p => range_error_message T p (value p v)) <$> first_violation v.
Proof.
  unfold check_ranges, first_violation, validation_order. simpl List.find.
  change ((0.5 <=? speed v) && (speed v <=? 2.0))%float with (in_domainb Speed (speed v)).
  change ((-0.15 <=? pitch v) && (pitch v <=? 0.15))%float with (in_domainb Pitch (pitch v)).
  change ((0.0 <=? intonation v) && (intonation v <=? 2.0))%float
    with (in_domainb Intonation (intonation v)).
  change ((0.0 <=? volume v) && (volume v <=? 2.0))%float
    with (in_domainb Volume (volume v)).
  destruct (in_domainb Speed _); [|reflexivity].
  destruct (in_domainb Pitch _); [|reflexivity].
  destruct (in_domainb Intonation _); [|reflexivity].
  destruct (in_domainb Volume _); reflexivity.
Qed.

Lemma first_violation_some v p :
  first_violation v = Some p <->
  ~ in_domain p (value p v) /\ (forall q, before q p -> in_domain q (value q v)).
Proof.
  unfold first_violation, validation_order, before. simpl List.find.
  split.
  - destruct (in_domainb Speed _) eqn:E1; simpl.
    2:{ intros [= <-]. split; [by apply in_domainb_false|]. intros []; simpl; lia. }
    destruct (in_domainb Pitch _) eqn:E2; simpl.
    2:{ intros [= <-]. split; [by apply in_domainb_false|].
        intros []; simpl; try lia. intros _. by apply in_domainb_spec. }
    destruct (in_domainb Intonation _) eqn:E3; simpl.
    2:{ intros [= <-]. split; [by apply in_domainb_false|].
        intros []; simpl; try lia; intros _; by apply in_domainb_spec. }
    destruct (in_domainb Volume _) eqn:E4; simpl; [discriminate|].
    intros [= <-]. split; [by apply in_domainb_false|].
    intros []; simpl; try lia; intros _; by apply in_domainb_spec.
  - intros [Hout Hin]. apply in_domainb_false in Hout.
    assert (Hb : forall q, (position q < position p)%nat -> in_domainb q (value q v) = true).
    { intros q Hq. apply in_domainb_spec. by apply Hin. }
    pose proof (Hb Speed) as HS. pose proof (Hb Pitch) as HP.
    pose proof (Hb Intonation) as HI. clear Hb Hin.
    destruct p; simpl in *.
    + by rewrite Hout.
    + rewrite HS by lia. simpl. by rewrite Hout.
    + rewrite HS, HP by lia. simpl. by rewrite Hout.
    + rewrite HS, HP, HI by lia. simpl. by rewrite Hout.
Qed.

Lemma first_violation_exists v :
  (exists p, ~ in_domain p (value p v)) -> exists p, first_violation v = Some p.
Proof.
  intros [p Hp]. destruct (first_violation v) as [q|] eqn:E; [eauto|].
  exfalso. apply Hp. apply in_domainb_spec.
  unfold first_violation in E.
  pose proof (find_none _ _ E p) as Hn. simpl in Hn.
  destruct (in_domainb p (value p v)); [reflexivity|].
  assert (In p validation_order) as Hin by (destruct p; simpl; tauto).
  specialize (Hn Hin). discriminate.
Qed.

(** Both handlers return the message of the first violation and leave
    the world as it was. *)
Lemma handlers_first_violation T env cfg text output_path speaker sp pi it vo p w :
  first_violation (resolve sp pi it vo) = Some p ->
  let msg := range_error_message T p (value p (resolve sp pi it vo)) in
  save_audio T env cfg text output_path speaker sp pi it vo w = (Ok msg, w)
  /\ speak_text T env cfg text speaker sp pi it vo w = (Ok msg, w).
Proof.
  intros Hp msg. unfold save_audio, speak_text.
  pose proof (check_ranges_first_violation T (resolve sp pi it vo)) as Hc.
  rewrite Hp in Hc. simpl in Hc. rewrite Hc. split; reflexivity.
Qed.

(** C1: whenever one of speed, pitch, intonation, volume (after the
    defaults are filled in) lies outside its documented interval,
    [save_audio] and [speak_text] return an error string that names such
    a parameter and its offending value, and the world is left exactly
    as it was: nothing is logged, so no request is sent and nothing else
    is done. *)
Theorem out_of_domain_is_rejected
    T env cfg text output_path speaker sp pi it vo w :
  (exists p, ~ in_domain p (value p (resolve sp pi it vo))) ->
  exists p,
    ~ in_domain p (value p (resolve sp pi it vo))
    /\ save_audio T env cfg text output_path speaker sp pi it vo w
       = (Ok (range_error_message T p (value p (resolve sp pi it vo))), w)
    /\ speak_text T env cfg text speaker sp pi it vo w
       = (Ok (range_error_message T p (value p (resolve sp pi it vo))), w).
Proof.
  intros Hex. destruct (first_violation_exists _ Hex) as [p Hp].
  exists p. split.
  - by apply first_violation_some in Hp as [Hout _].
  - by apply handlers_first_violation.
Qed.

Lemma out_of_domain_is_rejected_witness :
  exists p,
    ~ in_domain p (value p (resolve (Some 2.5%float) None None None))
    /\ save_audio Sample.text Sample.env Sample.cfg "こんにちは" "out/hello" None
                  (Some 2.5%float) None None None Sample.w0
       = (Ok (range_error_message Sample.text p
                (value p (resolve (Some 2.5%float) None None None))), Sample.w0)
    /\ speak_text Sample.text Sample.env Sample.cfg "こんにちは" None
                  (Some 2.5%float) None None None Sample.w0
       = (Ok (range_error_message Sample.text p
                (value p (resolve (Some 2.5%float) None None None))), Sample.w0).
Proof.
  apply (out_of_domain_is_rejected Sample.text Sample.env Sample.cfg "こんにちは" "out/hello"
           None (Some 2.5%float) None None None Sample.w0).
  exists Speed. intros [_ H]. vm_compute in H. discriminate H.
Defined.

(** C8: the four parameters are examined in the order speed, pitch,
    intonation, volume.  If [p] is outside its interval and every
    parameter before [p] in that order is inside its own, both handlers
    return the error string of [p] and of no other parameter, whatever
    the parameters after [p] are. *)
Theorem first_out_of_range_is_reported
    T env cfg text output_path speaker sp pi it vo p w :
  ~ in_domain p (value p (resolve sp pi it vo)) ->
  (forall q, before q p -> in_domain q (value q (resolve sp pi it vo))) ->
  save_audio T env cfg text output_path speaker sp pi it vo w
  = (Ok (range_error_message T p (value p (resolve sp pi it vo))), w)
  /\ speak_text T env cfg text speaker sp pi it vo w
     = (Ok (range_error_message T p (value p (resolve sp pi it vo))), w).
Proof.
  intros Hout Hin. apply handlers_first_violation.
  apply first_violation_some. by split.
Qed.

Lemma first_out_of_range_is_reported_witness :
  save_audio Sample.text Sample.env Sample.cfg "こんにちは" "out/hello" None
             (Some 1.5%float) (Some 0.5%float) None (Some 3.0%float) Sample.w0
  = (Ok "エラー: pitchは-0.15から0.15の範囲で指定してください (指定値: 0.5)", Sample.w0)
  /\ speak_text Sample.text Sample.env Sample.cfg "こんにちは" None
                (Some 1.5%float) (Some 0.5%float) None (Some 3.0%float) Sample.w0
     = (Ok "エラー: pitchは-0.15から0.15の範囲で指定してください (指定値: 0.5)", Sample.w0).
Proof.
  apply (first_out_of_range_is_reported Sample.text Sample.env Sample.cfg "こんにちは"
           "out/hello" None (Some 1.5%float) (Some 0.5%float) None (Some 3.0%float)
           Pitch Sample.w0).
  - intros [_ H]. vm_compute in H. discriminate H.
  - intros q Hq. destruct q; unfold before in Hq; simpl in Hq; try lia.
    split; vm_compute; reflexivity.
Defined.

(** ** The engine lifecycle guard (C6) *)

(** C6: with auto-start disabled [ensure_engine_running] returns at once
    and leaves the world, log included, untouched (no request, no child
    process); with auto-start enabled and an engine that answers the
    availability probe with 200, the probe is the only call made: no
    child process is launched. *)
Theorem ensure_engine_running_frame T env cfg w :
  (AUTO_START_ENGINE cfg = false ->
   ensure_engine_running T env cfg w = (Ok tt, w))
  /\ (AUTO_START_ENGINE cfg = true ->
      forall r,
        http_send env (version_request cfg) (trace w) = Ok r ->
        status_code r = 200 ->
        ensure_engine_running T env cfg w = (Ok tt, log (EvHttp (version_request cfg)) w)
        /\ List.filter is_run (trace (snd (ensure_engine_running T env cfg w)))
           = List.filter is_run (trace w)).
Proof.
  split.
  - intros Hoff. unfold ensure_engine_running. by rewrite Hoff.
  - intros Hon r Hr Hs.
    assert (ensure_engine_running T env cfg w = (Ok tt, log (EvHttp (version_request cfg)) w)) as E.
    { unfold ensure_engine_running, is_engine_running, try_except, bind, send, ret.
      rewrite Hon. cbn [negb]. cbv beta iota. by rewrite Hr, Hs. }
    split; [exact E|]. by rewrite E.
Qed.

Lemma ensure_engine_running_frame_witness :
  ensure_engine_running Sample.text Sample.env_down Sample.cfg_no_auto_start Sample.w0
  = (Ok tt, Sample.w0)
  /\ ensure_engine_running Sample.text Sample.env Sample.cfg Sample.w0
     = (Ok tt, log (EvHttp (version_request Sample.cfg)) Sample.w0).
Proof.
  split.
  - apply (proj1 (ensure_engine_running_frame Sample.text Sample.env_down
                    Sample.cfg_no_auto_start Sample.w0)).
    reflexivity.
  - apply (proj2 (ensure_engine_running_frame Sample.text Sample.env Sample.cfg Sample.w0)
             eq_refl (mkResponse 200 [] (Ok (JStr "0.14.0")))).
    + reflexivity.
    + reflexivity.
Defined.

(** ** Strings and paths *)

Section StringFacts.

Lemma app_cons c s t : String c s +:+ t = String c (s +:+ t).
Proof. reflexivity. Qed.

Lemma app_nil_l t : "" +:+ t = t.
Proof. reflexivity. Qed.

Lemma app_nil_r s : s +:+ "" = s.
Proof. induction s as [|c s IH]; [reflexivity|]. by rewrite app_cons, IH. Qed.

Lemma len_app s t : len (s +:+ t) = (len s + len t)%nat.
Proof. induction s as [|c s IH]; [reflexivity|]. rewrite app_cons. simpl. by rewrite IH. Qed.

Lemma len_zero s : len s = 0%nat -> s = "".
Proof. by destruct s. Qed.

Lemma take_app_len s t : take (len s) (s +:+ t) = s.
Proof. induction s as [|c s IH]; [by destruct t|]. rewrite app_cons. simpl. by rewrite IH. Qed.

Lemma drop_app_len s t : drop (len s) (s +:+ t) = t.
Proof. induction s as [|c s IH]; [reflexivity|]. rewrite app_cons. simpl. by rewrite IH. Qed.

Lemma take_drop n s : take n s +:+ drop n s = s.
Proof.
  revert s. induction n as [|n IH]; intros s; [reflexivity|].
  destruct s as [|c s]; [reflexivity|]. simpl. by rewrite app_cons, IH.
Qed.

Lemma len_take n s : (n <= len s)%nat -> len (take n s) = n.
Proof.
  revert s. induction n as [|n IH]; intros s Hn; [reflexivity|].
  destruct s as [|c s]; simpl in *; [lia|]. rewrite IH; lia.
Qed.

Lemma len_drop n s : len (drop n s) = (len s - n)%nat.
Proof.
  revert s. induction n as [|n IH]; intros s; simpl; [lia|].
  destruct s as [|c s]; simpl; [reflexivity|]. apply IH.
Qed.

Lemma contains_app c s t : contains c (s +:+ t) = (contains c s || contains c t)%bool.
Proof.
  induction s as [|x s IH]; [reflexivity|]. rewrite app_cons. simpl.
  destruct (Ascii.eqb x c); [reflexivity|apply IH].
Qed.

(** [rfind] looks at the right part first. *)
Lemma rfind_app c s t :
  rfind c (s +:+ t)
  = match rfind c t with
    | Some j => Some (len s + j)%nat
    | None => rfind c s
    end.
Proof.
  induction s as [|x s IH].
  - rewrite app_nil_l. by destruct (rfind c t).
  - rewrite app_cons. simpl. rewrite IH. by destruct (rfind c t).
Qed.

Lemma split_no_sep c s : contains c s = false -> split c s = [s].
Proof.
  induction s as [|x s IH]; [reflexivity|]. simpl.
  destruct (Ascii.eqb x c); [discriminate|]. intros H. by rewrite (IH H).
Qed.

Lemma split_app c s t :
  contains c s = false -> split c (s +:+ String c t) = s :: split c t.
Proof.
  induction s as [|x s IH]; intros H.
  - rewrite app_nil_l. simpl. by rewrite Ascii.eqb_refl.
  - rewrite app_cons. simpl in *. destruct (Ascii.eqb x c); [discriminate|].
    by rewrite (IH H).
Qed.

Lemma split_parts_no_sep c s : Forall (fun x => contains c x = false) (split c s).
Proof.
  induction s as [|x s IH]; simpl; [by repeat constructor|].
  destruct (Ascii.eqb x c) eqn:E; [by constructor|].
  destruct (split c s) as [|h t]; [by repeat constructor; simpl; rewrite E|].
  inversion IH; subst. constructor; [|done]. simpl. by rewrite E.
Qed.

Lemma split_join c l :
  l <> [] -> Forall (fun x => contains c x = false) l ->
  split c (join (String c "") l) = l.
Proof.
  intros Hne Hl. induction Hl as [|x l Hx Hl IH]; [done|].
  destruct l as [|y l].
  - simpl. by apply split_no_sep.
  - change (join (String c "") (x :: y :: l))
      with (x +:+ String c "" +:+ join (String c "") (y :: l)).
    rewrite app_cons, app_nil_l, split_app by done. by rewrite IH.
Qed.

End StringFacts.

Section PathFacts.

Lemma name_rename p n : name (rename p n) = n.
Proof. unfold name, rename. simpl. apply last_last. Qed.

Lemma parent_rename p n : tail p <> [] -> parent (rename p n) = parent p.
Proof.
  intros Hne. unfold parent, rename. simpl.
  destruct (List.removelast (tail p) ++ [n]) eqn:E.
  - by destruct (List.removelast (tail p)).
  - rewrite <- E, removelast_last. by destruct (tail p).
Qed.

Lemma rfind_dot_wav st : rfind "." (st +:+ ".wav") = Some (len st).
Proof. rewrite rfind_app. simpl. f_equal. lia. Qed.

(** A name [st.wav] with a non-empty [st] has suffix [.wav] and stem [st]. *)
Lemma suffix_rename_wav p st :
  st <> "" -> suffix (rename p (st +:+ ".wav")) = ".wav".
Proof.
  intros Hst. unfold suffix. rewrite name_rename. unfold py_rfind.
  rewrite rfind_dot_wav, len_app. simpl len.
  assert (len st <> 0)%nat by (intros E; by apply len_zero in E).
  replace ((0 <? Z.of_nat (len st)) && (Z.of_nat (len st) <? Z.of_nat (len st + 4) - 1))%bool
    with true by (symmetry; apply andb_true_iff; split; apply Z.ltb_lt; lia).
  by rewrite Nat2Z.id, drop_app_len.
Qed.

Lemma stem_rename_wav p st :
  st <> "" -> stem (rename p (st +:+ ".wav")) = st.
Proof.
  intros Hst. unfold stem. rewrite name_rename. unfold py_rfind.
  rewrite rfind_dot_wav, len_app. simpl len.
  assert (len st <> 0)%nat by (intros E; by apply len_zero in E).
  replace ((0 <? Z.of_nat (len st)) && (Z.of_nat (len st) <? Z.of_nat (len st + 4) - 1))%bool
    with true by (symmetry; apply andb_true_iff; split; apply Z.ltb_lt; lia).
  by rewrite Nat2Z.id, take_app_len.
Qed.

Lemma stem_nonempty p : name p <> "" -> stem p <> "".
Proof.
  intros Hn. unfold stem, py_rfind.
  destruct (rfind "." (name p)) as [j|] eqn:Ej; simpl; [|done].
  destruct ((0 <? Z.of_nat j) && (Z.of_nat j <? Z.of_nat (len (name p)) - 1))%bool eqn:E;
    [|done].
  apply andb_true_iff in E as [E1 E2]. apply Z.ltb_lt in E1, E2.
  intros Hs. assert (len (take (Z.to_nat (Z.of_nat j)) (name p)) = 0%nat) as Hl
    by (by rewrite Hs).
  rewrite Nat2Z.id, len_take in Hl; lia.
Qed.

(** The stem is the name without its suffix. *)
Lemma stem_suffix p : stem p +:+ suffix p = name p.
Proof.
  unfold stem, suffix.
  destruct ((0 <? py_rfind "." (name p))
            && (py_rfind "." (name p) <? Z.of_nat (len (name p)) - 1))%bool.
  - apply take_drop.
  - apply app_nil_r.
Qed.

(** On a path with a name, [with_suffix(".wav")] keeps the stem and puts
    [.wav] after it. *)
Lemma with_suffix_wav p :
  name p <> "" -> with_suffix p ".wav" = Ok (rename p (stem p +:+ ".wav")).
Proof.
  intros Hn. unfold with_suffix. simpl contains. cbv iota.
  change ((negb (String.eqb ".wav" "") && negb (startswith "." ".wav"))
          || String.eqb ".wav" ".")%bool with false. cbv iota.
  apply String.eqb_neq in Hn as Hn'. rewrite Hn'. unfold rename. do 3 f_equal.
  unfold suffix, stem, py_rfind.
  destruct (rfind "." (name p)) as [j|] eqn:Ej; simpl; [|done].
  destruct ((0 <? Z.of_nat j) && (Z.of_nat j <? Z.of_nat (len (name p)) - 1))%bool eqn:E;
    [|done].
  apply andb_true_iff in E as [E1 E2]. apply Z.ltb_lt in E1, E2.
  rewrite Nat2Z.id.
  assert (String.eqb (drop j (name p)) "" = false) as ->.
  { apply String.eqb_neq. intros Hd.
    assert (len (drop j (name p)) = 0%nat) as Hl by (by rewrite Hd).
    rewrite len_drop in Hl. lia. }
  unfold drop_last. rewrite len_drop.
  by replace (len (name p) - (len (name p) - j))%nat with j by lia.
Qed.

Lemma with_suffix_empty_name p :
  name p = "" ->
  with_suffix p ".wav" = Raise (ValueError (path_repr p +:+ " has an empty name")).
Proof.
  intros Hn. unfold with_suffix. simpl contains. cbv iota.
  change ((negb (String.eqb ".wav" "") && negb (startswith "." ".wav"))
          || String.eqb ".wav" ".")%bool with false. cbv iota.
  by rewrite Hn.
Qed.

End PathFacts.

Section RoundTrip.

Lemma keep_component_true x : keep_component x = true <-> x <> "" /\ x <> ".".
Proof.
  unfold keep_component. rewrite andb_true_iff, !negb_true_iff, !String.eqb_neq. tauto.
Qed.

Lemma filter_components l :
  Forall (fun x => contains "/" x = false) l ->
  Forall component_ok (List.filter keep_component l).
Proof.
  induction 1 as [|x l Hx Hl IH]; simpl; [constructor|].
  destruct (keep_component x) eqn:E; [|done].
  constructor; [|done]. apply keep_component_true in E as [? ?]. by repeat split.
Qed.

Lemma filter_components_id l :
  Forall component_ok l -> List.filter keep_component l = l.
Proof.
  induction 1 as [|x l (Hx1 & Hx2 & _) Hl IH]; simpl; [done|].
  assert (keep_component x = true) as -> by by apply keep_component_true.
  by rewrite IH.
Qed.

Lemma splitroot_root s :
  fst (splitroot s) = "" \/ fst (splitroot s) = "/" \/ fst (splitroot s) = "//".
Proof.
  unfold splitroot.
  destruct s as [|a s]; simpl; [by left|].
  destruct (Ascii.eqb_spec a "/") as [->|Ha]; simpl; [|by left].
  destruct s as [|b s]; simpl; [by right; left|].
  destruct (Ascii.eqb_spec b "/") as [->|Hb]; simpl; [|by right; left].
  destruct s as [|c s]; simpl; [by right; right|].
  destruct (Ascii.eqb_spec c "/"); simpl; [by right; left|by right; right].
Qed.

(** The parser produces well-formed paths only. *)
Lemma Path_well_formed s : well_formed (Path s).
Proof.
  unfold Path, parse_path. destruct (String.eqb s ""); [split; [by left|constructor]|].
  pose proof (splitroot_root s) as Hr. destruct (splitroot s) as [rt rel]. split; [exact Hr|].
  simpl. apply filter_components, split_parts_no_sep.
Qed.

Lemma Forall_removelast {A} (P : A -> Prop) l : Forall P l -> Forall P (List.removelast l).
Proof.
  induction 1 as [|x l Hx Hl IH]; simpl; [constructor|].
  destruct l; [constructor|]. by constructor.
Qed.

Lemma last_component_ok l : l <> [] -> Forall component_ok l -> component_ok (List.last l "").
Proof.
  intros Hne Hl. induction Hl as [|x l Hx Hl IH]; [done|].
  destruct l; [done|]. apply IH. discriminate.
Qed.

Lemma name_nonempty_tail p : name p <> "" -> tail p <> [].
Proof. unfold name. by destruct (tail p). Qed.

Lemma well_formed_name p : well_formed p -> tail p <> [] -> component_ok (name p).
Proof. intros [_ Ht] Hne. by apply last_component_ok. Qed.

(** Renaming to [stem.wav] keeps a path well formed. *)
Lemma rename_well_formed p :
  well_formed p -> name p <> "" -> well_formed (rename p (stem p +:+ ".wav")).
Proof.
  intros Hwf Hn. pose proof (well_formed_name p Hwf (name_nonempty_tail p Hn)) as (_ & _ & Hs).
  destruct Hwf as [Hr Ht]. split; [exact Hr|]. simpl.
  apply Forall_app. split; [by apply Forall_removelast|].
  constructor; [|constructor]. pose proof (stem_nonempty p Hn) as Hst.
  repeat split.
  - destruct (stem p); [done|]. by rewrite app_cons.
  - destruct (stem p) as [|c [|c' st]]; [done|rewrite app_cons, app_nil_l; discriminate|].
    rewrite !app_cons. discriminate.
  - rewrite contains_app. apply orb_false_iff. split; [|reflexivity].
    rewrite <- (stem_suffix p), contains_app in Hs. by apply orb_false_iff in Hs as [? _].
Qed.

Lemma join_head a x l : exists rest, join "/" (String a x :: l) = String a rest.
Proof.
  destruct l as [|y l]; [by exists x|].
  exists (x +:+ "/" +:+ join "/" (y :: l)). reflexivity.
Qed.

Lemma component_head x : component_ok x -> exists a r, x = String a r /\ Ascii.eqb a "/" = false.
Proof.
  intros (Hne & _ & Hs). destruct x as [|a r]; [done|]. exists a, r. split; [done|].
  simpl in Hs. by destruct (Ascii.eqb a "/").
Qed.

Lemma parse_join l :
  Forall component_ok l ->
  List.filter keep_component (split "/" (join "/" l)) = l.
Proof.
  intros Hl. destruct l as [|x l]; [reflexivity|].
  rewrite split_join; [by apply filter_components_id|discriminate|].
  eapply Forall_impl; [exact Hl|]. by intros ? (_ & _ & ?).
Qed.

(** Printing a well-formed path and parsing it again gives it back. *)
Lemma Path_path_str p : well_formed p -> Path (path_str p) = p.
Proof.
  destruct p as [rt tl]. intros [Hr Ht]. simpl in Hr, Ht.
  unfold Path, path_str. simpl root. simpl tail.
  destruct tl as [|x l].
  { destruct Hr as [->|[->| ->]]; reflexivity. }
  pose proof (parse_join _ Ht) as Hj.
  inversion Ht as [|? ? Hx Hl]; subst.
  destruct (component_head x Hx) as (a & r & -> & Ha).
  destruct (join_head a r l) as [rest Hrest]. rewrite Hrest in *.
  destruct Hr as [->|[->| ->]].
  - rewrite app_nil_l. unfold parse_path, splitroot, slice.
    cbn -[split List.filter]. rewrite Ha. cbn -[split List.filter]. by rewrite Hj.
  - rewrite app_cons, app_nil_l. unfold parse_path, splitroot, slice.
    cbn -[split List.filter]. rewrite Ha. cbn -[split List.filter]. by rewrite Hj.
  - rewrite !app_cons, app_nil_l. unfold parse_path, splitroot, slice.
    cbn -[split List.filter]. rewrite Ha. cbn -[split List.filter]. by rewrite Hj.
Qed.

End RoundTrip.

(** ** Output path normalization (C3, C10) *)

Lemma normalize_keeps s :
  lower (suffix (Path s)) = ".wav" -> normalize_output_path s = Ok (Path s).
Proof. intros H. unfold normalize_output_path. by rewrite H. Qed.

Lemma normalize_renames s :
  lower (suffix (Path s)) <> ".wav" -> name (Path s) <> "" ->
  normalize_output_path s = Ok (rename (Path s) (stem (Path s) +:+ ".wav")).
Proof.
  intros H Hn. unfold normalize_output_path.
  apply String.eqb_neq in H. rewrite H. by apply with_suffix_wav.
Qed.

Lemma normalize_raises s :
  lower (suffix (Path s)) <> ".wav" -> name (Path s) = "" ->
  normalize_output_path s
  = Raise (ValueError (path_repr (Path s) +:+ " has an empty name")).
Proof.
  intros H Hn. unfold normalize_output_path.
  apply String.eqb_neq in H. rewrite H. by apply with_suffix_empty_name.
Qed.

(** Every normalized path is well formed and ends in a suffix that is
    [.wav] up to case. *)
Lemma normalized_path s q :
  normalize_output_path s = Ok q -> lower (suffix q) = ".wav" /\ well_formed q.
Proof.
  intros H.
  destruct (String.eqb_spec (lower (suffix (Path s))) ".wav") as [E|E].
  - rewrite (normalize_keeps s E) in H. injection H as <-.
    split; [exact E|apply Path_well_formed].
  - destruct (String.eqb_spec (name (Path s)) "") as [En|En].
    + by rewrite (normalize_raises s E En) in H.
    + rewrite (normalize_renames s E En) in H. injection H as <-.
      split.
      * by rewrite suffix_rename_wav by by apply stem_nonempty.
      * apply rename_well_formed; [apply Path_well_formed|done].
Qed.

Lemma normalized_fixed s q :
  normalize_output_path s = Ok q -> normalize_output_path (path_str q) = Ok q.
Proof.
  intros H. apply normalized_path in H as [Hs Hwf].
  unfold normalize_output_path. rewrite (Path_path_str q Hwf).
  by rewrite Hs.
Qed.

(** C10: normalizing an output path twice is the same as normalizing it
    once (also when the first pass raises), because a normalized path has
    a suffix equal to [.wav] up to case and such a path is left as it
    is. *)
Theorem normalize_output_path_idempotent s :
  (t <~ normalize_str s ;; normalize_str t) = normalize_str s
  /\ (forall q, normalize_output_path s = Ok q ->
               lower (suffix q) = ".wav"
               /\ normalize_output_path (path_str q) = Ok q).
Proof.
  split.
  - unfold normalize_str. destruct (normalize_output_path s) as [q|e] eqn:E; [|reflexivity].
    simpl. by rewrite (normalized_fixed s q E).
  - intros q Hq. split; [by apply (normalized_path s q)|by apply (normalized_fixed s)].
Qed.

Lemma normalize_output_path_idempotent_witness :
  lower (suffix (Path "x/y/clip.wav")) = ".wav"
  /\ normalize_output_path (path_str (Path "x/y/clip.wav")) = Ok (Path "x/y/clip.wav").
Proof.
  apply (proj2 (normalize_output_path_idempotent "x/y/clip") (Path "x/y/clip.wav")).
  reflexivity.
Defined.

(** C3 as stated fails: the suffix of [clip.WAV] matches [.wav] up to
    case, so the path is kept as it is and is not turned into
    [clip.wav]; the file [save_audio] writes is [clip.WAV]. *)
Lemma upper_case_suffix_is_kept :
  normalize_str "clip.WAV" <> Ok "clip.wav"
  /\ files (snd (save_audio Sample.text Sample.env Sample.cfg "こんにちは" "clip.WAV"
                            None None None None None Sample.w0)) !! "clip.wav" = None
  /\ files (snd (save_audio Sample.text Sample.env Sample.cfg "こんにちは" "clip.WAV"
                            None None None None None Sample.w0)) !! "clip.WAV"
     = Some Sample.payload.
Proof. split; [discriminate|]. split; vm_compute; reflexivity. Qed.

(** C3, amended: a path whose suffix equals [.wav] up to case is kept
    unchanged, in its own case; any other path with a non-empty last
    component keeps its parent and its stem and gets the suffix [.wav]
    (replacing the old suffix, or appended when there was none).  So
    [x/y/clip] becomes [x/y/clip.wav] and [clip.WAV] stays [clip.WAV]. *)
Theorem normalize_output_path_spec s :
  (lower (suffix (Path s)) = ".wav" -> normalize_output_path s = Ok (Path s))
  /\ (lower (suffix (Path s)) <> ".wav" -> name (Path s) <> "" ->
      exists q,
        normalize_output_path s = Ok q
        /\ q = rename (Path s) (stem (Path s) +:+ ".wav")
        /\ parent q = parent (Path s)
        /\ stem q = stem (Path s)
        /\ suffix q = ".wav")
  /\ normalize_str "x/y/clip" = Ok "x/y/clip.wav"
  /\ normalize_str "clip.WAV" = Ok "clip.WAV".
Proof.
  split; [apply normalize_keeps|]. split; [|split; reflexivity].
  intros H Hn. eexists. split; [by apply normalize_renames|]. split; [reflexivity|].
  pose proof (stem_nonempty _ Hn) as Hst.
  split; [apply parent_rename; by apply name_nonempty_tail|].
  split; [by apply stem_rename_wav|by apply suffix_rename_wav].
Qed.

Lemma normalize_output_path_spec_witness :
  normalize_output_path "music/take1.MP3" = Ok (Path "music/take1.wav")
  /\ normalize_output_path "a/b/voice.Wav" = Ok (Path "a/b/voice.Wav").
Proof.
  split.
  - destruct (proj1 (proj2 (normalize_output_path_spec "music/take1.MP3")))
      as (q & Hq & -> & _).
    + discriminate.
    + discriminate.
    + exact Hq.
  - apply (proj1 (normalize_output_path_spec "a/b/voice.Wav")). reflexivity.
Defined.

(** ** Running the handlers *)

Section HandlerFacts.

Variable T : PyText.
Variable env : Env.
Variable cfg : Config.

Lemma first_violation_none v :
  (forall p, in_domain p (value p v)) -> first_violation v = None.
Proof.
  intros Hall. destruct (first_violation v) as [p|] eqn:E; [|done].
  apply first_violation_some in E as [Hout _]. by destruct (Hout (Hall p)).
Qed.

Lemma check_ranges_pass sp pi it vo :
  (forall p, in_domain p (value p (resolve sp pi it vo))) ->
  check_ranges T (default 1.0%float sp) (default 0.0%float pi)
               (default 1.0%float it) (default 1.0%float vo) = None.
Proof.
  intros Hall. pose proof (check_ranges_first_violation T (resolve sp pi it vo)) as Hc.
  by rewrite (first_violation_none _ Hall) in Hc.
Qed.

Lemma raise_for_status_success req r :
  success r -> raise_for_status T req r = ret tt.
Proof.
  intros [H1 H2]. unfold raise_for_status.
  apply Z.leb_le in H1, H2. by rewrite H1, H2.
Qed.

Lemma apply_settings_dict d v :
  apply_settings (JDict d) (speed v) (pitch v) (intonation v) (volume v)
  = Ok (JDict (settings_applied d v)).
Proof. reflexivity. Qed.

(** The two calls of a synthesis that goes well. *)
Lemma synthesize_success text sid v w r1 d r2 :
  http_send env (audio_query_request cfg text sid) (trace w) = Ok r1 ->
  success r1 ->
  decoded r1 = Ok (JDict d) ->
  http_send env (synthesis_request cfg sid (JDict (settings_applied d v)))
            (EvHttp (audio_query_request cfg text sid) :: trace w) = Ok r2 ->
  success r2 ->
  synthesize T env cfg text sid (speed v) (pitch v) (intonation v) (volume v) w
  = (Ok (content r2),
     log (EvHttp (synthesis_request cfg sid (JDict (settings_applied d v))))
         (log (EvHttp (audio_query_request cfg text sid)) w)).
Proof.
  intros H1 S1 D1 H2 S2. unfold synthesize, bind, send, response_json, lift.
  rewrite H1, (raise_for_status_success _ _ S1). unfold ret at 1. rewrite D1.
  rewrite apply_settings_dict. simpl trace. rewrite H2.
  by rewrite (raise_for_status_success _ _ S2).
Qed.

(** A handler whose [except] clauses all return never raises. *)
Lemma try_except_returns {A} (body : M A) (handler : exn -> M A) w :
  (forall e w', exists a, fst (handler e w') = Ok a) ->
  exists a, fst (try_except body handler w) = Ok a.
Proof.
  intros Hh. unfold try_except. destruct (body w) as [[a|e] w']; [by exists a|apply Hh].
Qed.

Lemma list_speakers_returns w : exists msg, fst (list_speakers T env cfg w) = Ok msg.
Proof.
  apply try_except_returns. intros e w'. destruct (kind e); by eexists.
Qed.

Lemma speak_text_returns text speaker sp pi it vo w :
  exists msg, fst (speak_text T env cfg text speaker sp pi it vo w) = Ok msg.
Proof.
  unfold speak_text. destruct (check_ranges _ _ _ _ _); [by eexists|].
  apply try_except_returns. intros e w'. destruct (kind e); by eexists.
Qed.

Lemma save_audio_returns text output_path speaker sp pi it vo w out :
  normalize_output_path output_path = Ok out ->
  exists msg, fst (save_audio T env cfg text output_path speaker sp pi it vo w) = Ok msg.
Proof.
  intros Hout. unfold save_audio. destruct (check_ranges _ _ _ _ _); [by eexists|].
  rewrite Hout. unfold bind at 1, lift at 1.
  apply try_except_returns. intros e w'. destruct (kind e); by eexists.
Qed.

(** With valid parameters, a path without a last component and without
    a [.wav] suffix makes [save_audio] raise, before its [try]. *)
Lemma save_audio_raises text output_path speaker sp pi it vo w :
  (forall p, in_domain p (value p (resolve sp pi it vo))) ->
  lower (suffix (Path output_path)) <> ".wav" ->
  name (Path output_path) = "" ->
  save_audio T env cfg text output_path speaker sp pi it vo w
  = (Raise (ValueError (path_repr (Path output_path) +:+ " has an empty name")), w).
Proof.
  intros Hall Hs Hn. unfold save_audio. rewrite (check_ranges_pass _ _ _ _ Hall).
  by rewrite (normalize_raises _ Hs Hn).
Qed.

End HandlerFacts.

(** ** Errors at the boundary of the tools (C4) *)

(** C4, the failing input: with the empty output path (and the default
    voice parameters) [save_audio] does not return a string; the
    [ValueError] of [with_suffix] leaves the handler, whatever the
    engine and the file system would have done, and nothing has been
    attempted by then.  The same happens for the path [/]. *)
Theorem save_audio_empty_path_raises T env cfg text speaker w :
  save_audio T env cfg text "" speaker None None None None w
  = (Raise (ValueError "PosixPath('.') has an empty name"), w)
  /\ save_audio T env cfg text "/" speaker None None None None w
     = (Raise (ValueError "PosixPath('/') has an empty name"), w)
  /\ ~ (exists msg, fst (save_audio T env cfg text "" speaker None None None None w) = Ok msg).
Proof.
  assert (forall p, in_domain p (value p (resolve None None None None))) as Hall
    by (intros p; destruct p; split; reflexivity).
  split; [|split].
  - apply (save_audio_raises T env cfg text "" speaker None None None None w Hall);
      [discriminate|reflexivity].
  - apply (save_audio_raises T env cfg text "/" speaker None None None None w Hall);
      [discriminate|reflexivity].
  - intros [msg Hmsg].
    rewrite (save_audio_raises T env cfg text "" speaker None None None None w Hall) in Hmsg;
      [discriminate| discriminate |reflexivity].
Qed.

(** ** Saving the audio (C5) *)

(** C5: when the parameters are valid, the output path normalizes to
    [out], both engine calls answer with a 2xx status, the query answer
    is a JSON object and the two file-system calls do not fail, then
    [save_audio] returns the success message that names [out]; the file
    at [out] holds exactly the body of the synthesis response, whatever
    was there before; every missing ancestor directory of [out] exists
    afterwards; no other file is touched. *)
Theorem save_audio_writes_payload
    T env cfg text output_path speaker sp pi it vo w out r1 d r2 :
  let v := resolve sp pi it vo in
  let sid := default (SPEAKER_ID cfg) speaker in
  let req1 := audio_query_request cfg text sid in
  let req2 := synthesis_request cfg sid (JDict (settings_applied d v)) in
  let made := EvMkdir (path_str (parent out)) in
  let written := EvWriteBytes (path_str out) (content r2) in
  (forall p, in_domain p (value p v)) ->
  normalize_output_path output_path = Ok out ->
  http_send env req1 (trace w) = Ok r1 ->
  success r1 ->
  decoded r1 = Ok (JDict d) ->
  http_send env req2 (EvHttp req1 :: trace w) = Ok r2 ->
  success r2 ->
  os_fault env made (EvHttp req2 :: EvHttp req1 :: trace w) = None ->
  os_fault env written (made :: EvHttp req2 :: EvHttp req1 :: trace w) = None ->
  exists w',
    save_audio T env cfg text output_path speaker sp pi it vo w
    = (Ok ("音声ファイルを保存しました: " +:+ path_str out), w')
    /\ files w' !! path_str out = Some (content r2)
    /\ (forall a, a ∈ lineage (parent out) -> path_str a ∈ dirs w')
    /\ (forall f, f <> path_str out -> files w' !! f = files w !! f)
    /\ trace w' = written :: made :: EvHttp req2 :: EvHttp req1 :: trace w.
Proof.
  intros v sid req1 req2 made written Hall Hout H1 S1 D1 H2 S2 F1 F2.
  eexists. split.
  - unfold save_audio. rewrite (check_ranges_pass T _ _ _ _ Hall), Hout.
    unfold bind at 1, lift at 1. unfold try_except. unfold bind at 1.
    change (default 1.0%float sp) with (speed v). change (default 0.0%float pi) with (pitch v).
    change (default 1.0%float it) with (intonation v).
    change (default 1.0%float vo) with (volume v).
    fold sid. rewrite (synthesize_success T env cfg text sid v w r1 d r2 H1 S1 D1 H2 S2).
    unfold bind, mkdir_parents, write_bytes, os_call. simpl trace.
    fold req1 req2 made. rewrite F1. simpl trace. fold written. rewrite F2.
    reflexivity.
  - simpl. split; [apply lookup_insert_eq|].
    split; [|split; [|reflexivity]].
    + intros a Ha. apply elem_of_union_r, elem_of_list_to_set.
      by apply list_elem_of_fmap_2.
    + intros f Hf. by apply lookup_insert_ne.
Qed.

Lemma save_audio_writes_payload_witness :
  exists w',
    save_audio Sample.text Sample.env Sample.cfg "こんにちは" "x/y/clip" None
               None None None None Sample.w0
    = (Ok "音声ファイルを保存しました: x/y/clip.wav", w')
    /\ files w' !! "x/y/clip.wav" = Some Sample.payload
    /\ (forall a, a ∈ [Path "x/y"; Path "x"] -> path_str a ∈ dirs w').
Proof.
  destruct (save_audio_writes_payload Sample.text Sample.env Sample.cfg "こんにちは"
              "x/y/clip" None None None None None Sample.w0 (Path "x/y/clip.wav")
              (mkResponse 200 []
                 (Ok (JDict [("speedScale", JFloat 1.0); ("kana", JStr "コンニチワ")])))
              [("speedScale", JFloat 1.0); ("kana", JStr "コンニチワ")]
              (mkResponse 200 Sample.payload
                 (Raise (ValueError "Expecting value: line 1 column 1 (char 0)"))))
    as (w' & Hres & Hfile & Hdirs & _).
  - intros p. destruct p; split; reflexivity.
  - reflexivity.
  - reflexivity.
  - unfold success. simpl. lia.
  - reflexivity.
  - reflexivity.
  - unfold success. simpl. lia.
  - reflexivity.
  - reflexivity.
  - exists w'. split; [exact Hres|]. split; [exact Hfile|exact Hdirs].
Defined.

(** ** The temporary playback file (C2) *)

(** The player inside [try ... finally]: whatever [subprocess.run] does,
    [os.unlink] is the next call. *)
Lemma play_and_unlink_trace T env path w :
  trace (snd (play_and_unlink T env path w))
  = EvUnlink path :: EvRun (ffplay_argv path) None :: trace w.
Proof.
  unfold play_and_unlink, try_finally, bind, subprocess_run, unlink, os_call.
  destruct (proc_run env (ffplay_argv path) None (trace w)) as [code|e]; simpl.
  - destruct (negb (code =? 0)); simpl;
      destruct (os_fault env (EvUnlink path) _); reflexivity.
  - destruct (os_fault env (EvUnlink path) _); reflexivity.
Qed.

(** C2: once the audio is synthesized and written to the temporary
    file, [speak_text] calls [os.unlink] on that file right after the
    player, on every way out of the player: exit status 0, a non-zero
    exit status, a missing executable, or any other exception.  When
    the unlink itself does not fail the file is gone at the end, and the
    handler still returns its message. *)
Theorem speak_text_unlinks_temp_file
    T env cfg text speaker sp pi it vo w audio w1 :
  let v := resolve sp pi it vo in
  let path := temp_stem env (trace w1) +:+ ".wav" in
  let written := EvTempWrite path audio :: EvTempCreate path :: trace w1 in
  let played := EvRun (ffplay_argv path) None :: written in
  (forall p, in_domain p (value p v)) ->
  synthesize T env cfg text (default (SPEAKER_ID cfg) speaker)
             (speed v) (pitch v) (intonation v) (volume v) w = (Ok audio, w1) ->
  os_fault env (EvTempCreate path) (trace w1) = None ->
  os_fault env (EvTempWrite path audio) (EvTempCreate path :: trace w1) = None ->
  os_fault env (EvUnlink path) played = None ->
  exists msg w',
    speak_text T env cfg text speaker sp pi it vo w = (Ok msg, w')
    /\ trace w' = EvUnlink path :: played
    /\ files w' !! path = None
    /\ (proc_run env (ffplay_argv path) None written = Ok 0 ->
        msg = played_message text)
    /\ (forall code, code <> 0 ->
        proc_run env (ffplay_argv path) None written = Ok code ->
        msg = "エラー: 音声再生に失敗しました (code: " +:+ pretty code +:+ ")")
    /\ (forall e, kind e = FileNotFoundError ->
        proc_run env (ffplay_argv path) None written = Raise e ->
        msg = "エラー: ffplayが見つかりません。FFmpegをインストールしてください。").
Proof.
  intros v path written played Hall Hsyn F1 F2 F3.
  unfold played, written in *. clear played written.
  unfold speak_text. rewrite (check_ranges_pass T _ _ _ _ Hall).
  unfold try_except. unfold bind at 1.
  change (default 1.0%float sp) with (speed v). change (default 0.0%float pi) with (pitch v).
  change (default 1.0%float it) with (intonation v).
  change (default 1.0%float vo) with (volume v).
  rewrite Hsyn.
  unfold play, NamedTemporaryFile, temp_write, os_call, bind. fold path.
  rewrite F1. simpl trace. rewrite F2.
  unfold play_and_unlink, try_finally, subprocess_run, unlink, os_call, bind, ret.
  cbn [trace log files dirs andb].
  destruct (proc_run env (ffplay_argv path) None _) as [code|e] eqn:Hp.
  - destruct (Z.eqb_spec code 0) as [->|Hc]; simpl; rewrite F3.
    + do 2 eexists. split; [reflexivity|]. split; [reflexivity|].
      split; [apply lookup_delete_eq|]. split; [done|]. split; [|done].
      by intros code Hc [= <-].
    + do 2 eexists. split; [reflexivity|]. split; [reflexivity|].
      split; [apply lookup_delete_eq|]. split; [by intros [= ->]|]. split; [|done].
      by intros code' _ [= <-].
  - simpl. rewrite F3.
    destruct (kind e) eqn:Hk; do 2 eexists;
      (split; [reflexivity|]); (split; [reflexivity|]);
      (split; [apply lookup_delete_eq|]); (split; [done|]); (split; [done|]);
      intros e' He' [= <-]; congruence.
Qed.

Lemma speak_text_unlinks_temp_file_witness :
  (exists msg w',
     speak_text Sample.text (Sample.env_with (Ok 0)) Sample.cfg "こんにちは" None
                None None None None Sample.w0 = (Ok msg, w')
     /\ files w' !! "/tmp/tmpk3v9x2.wav" = None)
  /\ (exists msg w',
     speak_text Sample.text (Sample.env_with (Ok 1)) Sample.cfg "こんにちは" None
                None None None None Sample.w0 = (Ok msg, w')
     /\ files w' !! "/tmp/tmpk3v9x2.wav" = None)
  /\ (exists msg w',
     speak_text Sample.text
                (Sample.env_with (Raise (mkExn FileNotFoundError "[Errno 2] No such file")))
                Sample.cfg "こんにちは" None None None None None Sample.w0 = (Ok msg, w')
     /\ files w' !! "/tmp/tmpk3v9x2.wav" = None).
Proof.
  assert (forall player,
            exists msg w',
              speak_text Sample.text (Sample.env_with player) Sample.cfg "こんにちは" None
                         None None None None Sample.w0 = (Ok msg, w')
              /\ files w' !! "/tmp/tmpk3v9x2.wav" = None) as Hany.
  { intros player.
    destruct (speak_text_unlinks_temp_file Sample.text (Sample.env_with player) Sample.cfg
                "こんにちは" None None None None None Sample.w0 Sample.payload
                (log (EvHttp (synthesis_request Sample.cfg 8
                       (JDict (settings_applied
                                 [("speedScale", JFloat 1.0); ("kana", JStr "コンニチワ")]
                                 (resolve None None None None)))))
                     (log (EvHttp (audio_query_request Sample.cfg "こんにちは" 8)) Sample.w0)))
      as (msg & w' & Hres & _ & Hgone & _).
    - intros p. destruct p; split; reflexivity.
    - reflexivity.
    - reflexivity.
    - reflexivity.
    - reflexivity.
    - exists msg, w'. split; [exact Hres|exact Hgone]. }
  split; [apply Hany|]. split; apply Hany.
Defined.

(** ** Listing the speakers (C7) *)

Lemma style_lines_encoded T n jl styles :
  Forall2 encodes_style jl styles ->
  style_lines T (JStr n) jl
  = Ok (List.map (fun st => pair_line (mkSpeaker n [], st)) styles).
Proof.
  induction 1 as [|j st jl styles (d & -> & Hn & Hi) _ IH]; [reflexivity|].
  simpl. rewrite Hn, Hi. simpl. by rewrite IH.
Qed.

Lemma speaker_lines_encoded T js catalog :
  Forall2 encodes_speaker js catalog ->
  speaker_lines T js = Ok (List.map pair_line (pairs catalog)).
Proof.
  induction 1 as [|j sp js catalog (d & jl & -> & Hn & Hs & Hst) _ IH]; [reflexivity|].
  simpl. rewrite Hn, Hs. simpl. rewrite (style_lines_encoded T _ _ _ Hst). simpl.
  rewrite IH. simpl. unfold pairs. simpl. rewrite List.map_app, List.map_map.
  do 2 f_equal.
Qed.

Lemma pairs_length catalog :
  length (pairs catalog) = list_sum (List.map (fun sp => length (speaker_styles sp)) catalog).
Proof.
  unfold pairs. induction catalog as [|sp c IH]; [reflexivity|].
  simpl. by rewrite length_app, length_map, IH.
Qed.

(** C7: when the engine answers the catalog request with a 2xx status
    and a JSON list that carries the catalog, [list_speakers] returns the
    header followed by one line per (speaker, style) pair, in catalog
    order, each line made of the display name, the style name and the
    numeric style identifier.  For one speaker with two styles these are
    exactly two lines. *)
Theorem list_speakers_renders_catalog T env cfg w r js catalog :
  http_send env (speakers_request cfg) (trace w) = Ok r ->
  success r ->
  decoded r = Ok (JList js) ->
  Forall2 encodes_speaker js catalog ->
  list_speakers T env cfg w
  = (Ok ("利用可能なスピーカー一覧:" +:+ nl +:+ join nl (List.map pair_line (pairs catalog))),
     log (EvHttp (speakers_request cfg)) w)
  /\ length (List.map pair_line (pairs catalog))
     = list_sum (List.map (fun sp => length (speaker_styles sp)) catalog)
  /\ (forall n s1 s2,
        catalog = [mkSpeaker n [s1; s2]] ->
        List.map pair_line (pairs catalog)
        = ["- " +:+ n +:+ "（" +:+ style_name s1 +:+ "）: speaker_id=" +:+ pretty (style_id s1);
           "- " +:+ n +:+ "（" +:+ style_name s2 +:+ "）: speaker_id=" +:+ pretty (style_id s2)]).
Proof.
  intros Hsend Hok Hdec Hcat. split; [|split].
  - unfold list_speakers, try_except, bind, send, response_json, lift.
    rewrite Hsend, (raise_for_status_success T _ _ Hok). unfold ret at 1.
    rewrite Hdec. simpl py_iter. cbv iota beta.
    by rewrite (speaker_lines_encoded T _ _ Hcat).
  - by rewrite length_map, pairs_length.
  - by intros n s1 s2 ->.
Qed.

Lemma list_speakers_renders_catalog_witness :
  list_speakers Sample.text Sample.env Sample.cfg Sample.w0
  = (Ok ("利用可能なスピーカー一覧:" +:+ nl
         +:+ "- ずんだもん（ノーマル）: speaker_id=3" +:+ nl
         +:+ "- ずんだもん（あまあま）: speaker_id=1"),
     log (EvHttp (speakers_request Sample.cfg)) Sample.w0).
Proof.
  apply (list_speakers_renders_catalog Sample.text Sample.env Sample.cfg Sample.w0
           (mkResponse 200 [] (Ok Sample.catalog))
           [JDict [("name", JStr "ずんだもん");
                   ("styles", JList [JDict [("name", JStr "ノーマル"); ("id", JInt 3)];
                                     JDict [("name", JStr "あまあま"); ("id", JInt 1)]])]]
           [mkSpeaker "ずんだもん" [mkStyle "ノーマル" 3; mkStyle "あまあま" 1]]).
  - reflexivity.
  - unfold success. simpl. lia.
  - reflexivity.
  - constructor; [|constructor].
    eexists _, _. split; [reflexivity|]. split; [reflexivity|]. split; [reflexivity|].
    constructor; [|constructor; [|constructor]]; eexists; (split; [reflexivity|]);
      split; reflexivity.
Defined.

(** ** The speaker identifier (C9) *)

Section LogFacts.

Context {A B : Type} (P : Event -> Prop).

Lemma only_adds_ret (a : A) : only_adds P (ret a).
Proof. intros w. by exists []. Qed.

Lemma only_adds_raise e : only_adds P (@raise A e).
Proof. intros w. by exists []. Qed.

Lemma only_adds_lift (r : Result A) : only_adds P (lift r).
Proof. intros w. by exists []. Qed.

Lemma only_adds_bind (m : M A) (k : A -> M B) :
  only_adds P m -> (forall a, only_adds P (k a)) -> only_adds P (bind m k).
Proof.
  intros Hm Hk w. unfold bind. destruct (Hm w) as (evs & Ht & Hevs).
  destruct (m w) as [[a|e] w1]; simpl in *.
  - destruct (Hk a w1) as (evs' & Ht' & Hevs'). exists (evs' ++ evs).
    rewrite Ht', Ht, app_assoc. split; [done|by apply Forall_app].
  - by exists evs.
Qed.

Lemma only_adds_try_except (body : M A) (handler : exn -> M A) :
  only_adds P body -> (forall e, only_adds P (handler e)) ->
  only_adds P (try_except body handler).
Proof.
  intros Hm Hh w. unfold try_except. destruct (Hm w) as (evs & Ht & Hevs).
  destruct (body w) as [[a|e] w1]; simpl in *.
  - by exists evs.
  - destruct (Hh e w1) as (evs' & Ht' & Hevs'). exists (evs' ++ evs).
    rewrite Ht', Ht, app_assoc. split; [done|by apply Forall_app].
Qed.

Lemma only_adds_try_finally (body : M A) (cleanup : M unit) :
  only_adds P body -> only_adds P cleanup -> only_adds P (try_finally body cleanup).
Proof.
  intros Hm Hc w. unfold try_finally. destruct (Hm w) as (evs & Ht & Hevs).
  destruct (body w) as [r w1]; simpl in *.
  destruct (Hc w1) as (evs' & Ht' & Hevs').
  exists (evs' ++ evs). split; [|by apply Forall_app].
  destruct (cleanup w1) as [[[]|e] w2]; simpl in *; by rewrite Ht', Ht, app_assoc.
Qed.

Lemma starts_with_bind ev (m : M A) (k : A -> M B) :
  starts_with ev P m -> (forall a, only_adds P (k a)) -> starts_with ev P (bind m k).
Proof.
  intros Hm Hk w. unfold bind. destruct (Hm w) as (evs & Ht & Hevs).
  destruct (m w) as [[a|e] w1]; simpl in *.
  - destruct (Hk a w1) as (evs' & Ht' & Hevs'). exists (evs' ++ evs).
    rewrite Ht', Ht, app_assoc. split; [done|by apply Forall_app].
  - by exists evs.
Qed.

Lemma starts_with_try_except ev (body : M A) (handler : exn -> M A) :
  starts_with ev P body -> (forall e, only_adds P (handler e)) ->
  starts_with ev P (try_except body handler).
Proof.
  intros Hm Hh w. unfold try_except. destruct (Hm w) as (evs & Ht & Hevs).
  destruct (body w) as [[a|e] w1]; simpl in *.
  - by exists evs.
  - destruct (Hh e w1) as (evs' & Ht' & Hevs'). exists (evs' ++ evs).
    rewrite Ht', Ht, app_assoc. split; [done|by apply Forall_app].
Qed.

End LogFacts.

Section Forwarding.

Variable T : PyText.
Variable env : Env.
Variable cfg : Config.
Variable P : Event -> Prop.

Lemma Forall_one (ev : Event) : P ev -> Forall P [ev].
Proof. intros HP. by apply Forall_cons. Qed.

Lemma only_adds_send req : P (EvHttp req) -> only_adds P (send env req).
Proof. intros HP w. exists [EvHttp req]. split; [reflexivity|by apply Forall_one]. Qed.

Lemma starts_with_send req : starts_with (EvHttp req) P (send env req).
Proof. intros w. by exists []. Qed.

Lemma only_adds_raise_for_status req r : only_adds P (raise_for_status T req r).
Proof.
  unfold raise_for_status.
  destruct (_ && _)%bool; [apply only_adds_ret|apply only_adds_raise].
Qed.

Lemma only_adds_os_call ev effect :
  P ev -> (forall w, trace (effect w) = trace w) -> only_adds P (os_call env ev effect).
Proof.
  intros HP Heff w. exists [ev]. unfold os_call.
  destruct (os_fault env ev (trace w)); simpl; rewrite ?Heff;
    (split; [reflexivity|by apply Forall_one]).
Qed.

Lemma only_adds_subprocess_run argv cwd check :
  P (EvRun argv cwd) -> only_adds P (subprocess_run T env argv cwd check).
Proof.
  intros HP w. exists [EvRun argv cwd]. unfold subprocess_run.
  destruct (proc_run env argv cwd (trace w)) as [code|e];
    [destruct (check && negb (code =? 0))%bool|];
    (split; [reflexivity|by apply Forall_one]).
Qed.

Lemma only_adds_NamedTemporaryFile sfx :
  (forall path, P (EvTempCreate path)) -> only_adds P (NamedTemporaryFile env sfx).
Proof.
  intros HP w. exists [EvTempCreate (temp_stem env (trace w) +:+ sfx)].
  unfold NamedTemporaryFile.
  destruct (os_fault env _ (trace w)); (split; [reflexivity|by apply Forall_one]).
Qed.

End Forwarding.

Section SpeakerFacts.

Variable T : PyText.
Variable env : Env.
Variable cfg : Config.

Lemma carries_speaker_synthesis sid q : carries_speaker sid (EvHttp (synthesis_request cfg sid q)).
Proof. reflexivity. Qed.

(** The synthesis sends the query request first; the only other request
    it may send is the synthesis request, with the same speaker. *)
Lemma synthesize_forwards text sid s p i v :
  starts_with (EvHttp (audio_query_request cfg text sid)) (carries_speaker sid)
              (synthesize T env cfg text sid s p i v).
Proof.
  unfold synthesize. apply starts_with_bind; [apply starts_with_send|].
  intros r1. apply only_adds_bind; [apply only_adds_raise_for_status|]. intros _.
  apply only_adds_bind; [apply only_adds_lift|]. intros q.
  apply only_adds_bind; [apply only_adds_lift|]. intros q'.
  apply only_adds_bind; [apply only_adds_send, carries_speaker_synthesis|]. intros r2.
  apply only_adds_bind; [apply only_adds_raise_for_status|]. intros _.
  apply only_adds_ret.
Qed.

Lemma save_audio_forwards text output_path speaker sp pi it vo out :
  (forall p, in_domain p (value p (resolve sp pi it vo))) ->
  normalize_output_path output_path = Ok out ->
  starts_with (EvHttp (audio_query_request cfg text (default (SPEAKER_ID cfg) speaker)))
              (carries_speaker (default (SPEAKER_ID cfg) speaker))
              (save_audio T env cfg text output_path speaker sp pi it vo).
Proof.
  intros Hall Hout. unfold save_audio.
  rewrite (check_ranges_pass T _ _ _ _ Hall), Hout.
  intros w. unfold bind at 1, lift at 1. revert w.
  apply starts_with_try_except.
  - apply starts_with_bind; [apply synthesize_forwards|]. intros audio.
    apply only_adds_bind; [by apply only_adds_os_call|]. intros _.
    apply only_adds_bind; [by apply only_adds_os_call|]. intros _.
    apply only_adds_ret.
  - intros e. destruct (kind e); apply only_adds_ret.
Qed.

Lemma speak_text_forwards text speaker sp pi it vo :
  (forall p, in_domain p (value p (resolve sp pi it vo))) ->
  starts_with (EvHttp (audio_query_request cfg text (default (SPEAKER_ID cfg) speaker)))
              (carries_speaker (default (SPEAKER_ID cfg) speaker))
              (speak_text T env cfg text speaker sp pi it vo).
Proof.
  intros Hall. unfold speak_text. rewrite (check_ranges_pass T _ _ _ _ Hall).
  apply starts_with_try_except.
  - apply starts_with_bind; [apply synthesize_forwards|]. intros audio.
    apply only_adds_bind; [|intros _; apply only_adds_ret].
    unfold play. apply only_adds_bind.
    + apply only_adds_bind; [by apply only_adds_NamedTemporaryFile|]. intros f.
      apply only_adds_bind; [by apply only_adds_os_call|]. intros _. apply only_adds_ret.
    + intros path. apply only_adds_try_finally; [|by apply only_adds_os_call].
      apply only_adds_bind; [by apply only_adds_subprocess_run|]. intros _.
      apply only_adds_ret.
  - intros e. destruct (kind e); apply only_adds_ret.
Qed.

End SpeakerFacts.

(** * Further properties of the code *)

(** ** The engine lifecycle, lines 29-78 *)

Section Lifecycle.

Variable T : PyText.
Variable env : Env.
Variable cfg : Config.

Lemma is_engine_running_eq w :
  is_engine_running env cfg w
  = (Ok (probe_answer env cfg (trace w)), log (EvHttp (version_request cfg)) w).
Proof.
  unfold is_engine_running, try_except, bind, send, probe_answer.
  by destruct (http_send env (version_request cfg) (trace w)).
Qed.

Lemma probe_answer_true tr :
  probe_answer env cfg tr = true
  <-> exists r, http_send env (version_request cfg) tr = Ok r /\ status_code r = 200.
Proof.
  unfold probe_answer. destruct (http_send env (version_request cfg) tr) as [r|e].
  - rewrite Z.eqb_eq. split; [by exists r|]. by intros (r' & [= <-] & ?).
  - split; [done|]. by intros (r' & ? & _).
Qed.

(** The existence check of line 42 stands before the [try]: what it
    raises leaves [start_engine]. *)
Lemma start_engine_check_fails w e :
  os_fault env (EvExists (path_str (compose_file cfg))) (trace w) = Some e ->
  start_engine T env cfg w = (Raise e, log (EvExists (path_str (compose_file cfg))) w).
Proof.
  intros Hf. unfold start_engine, bind, path_exists. fold (compose_file cfg).
  by rewrite Hf.
Qed.

Lemma start_engine_missing w :
  os_fault env (EvExists (path_str (compose_file cfg))) (trace w) = None ->
  present w (path_str (compose_file cfg)) = false ->
  start_engine T env cfg w
  = (Ok false,
     log (EvPrintStderr "docker-compose.yml not found, skipping auto-start")
         (log (EvExists (path_str (compose_file cfg))) w)).
Proof.
  intros Hf Hp. unfold start_engine, bind, path_exists. fold (compose_file cfg).
  unfold present in Hp. by rewrite Hf, Hp.
Qed.

(** [start_engine] once the descriptor file is there, by what the
    launch of [docker] does. *)
Lemma start_engine_present w :
  os_fault env (EvExists (path_str (compose_file cfg))) (trace w) = None ->
  present w (path_str (compose_file cfg)) = true ->
  let found := log (EvExists (path_str (compose_file cfg))) w in
  let ran := log (EvRun docker_argv (Some (path_str (PROJECT_DIR cfg)))) found in
  start_engine T env cfg w
  = match proc_run env docker_argv (Some (path_str (PROJECT_DIR cfg))) (trace found) with
    | Ok code =>
        if code =? 0 then (Ok true, ran)
        else (Ok false,
              log (EvPrintStderr ("Failed to start VOICEVOX Engine: "
                                  +:+ CalledProcessError_str T docker_argv code)) ran)
    | Raise e =>
        match kind e with
        | CalledProcessError _ =>
            (Ok false,
             log (EvPrintStderr ("Failed to start VOICEVOX Engine: " +:+ message e)) ran)
        | FileNotFoundError =>
            (Ok false, log (EvPrintStderr "docker command not found") ran)
        | _ => (Raise e, ran)
        end
    end.
Proof.
  intros Hf Hp found ran. subst found ran.
  unfold start_engine, bind, path_exists. fold (compose_file cfg).
  unfold present in Hp. rewrite Hf, Hp. cbn [negb].
  unfold try_except, bind, subprocess_run, print_stderr, ret, raise.
  fold docker_argv. cbn [trace log andb].
  destruct (proc_run env docker_argv _ _) as [code|e]; [|by destruct (kind e)].
  by destruct (code =? 0).
Qed.

End Lifecycle.

Section Polling.

Variable T : PyText.
Variable env : Env.
Variable cfg : Config.

Lemma same_fs_refl w : same_fs w w.
Proof. by split. Qed.

Lemma same_fs_trans w1 w2 w3 : same_fs w1 w2 -> same_fs w2 w3 -> same_fs w1 w3.
Proof. intros [? ?] [? ?]. split; congruence. Qed.

(** The polling loop never raises, sleeps at most [n] times, launches
    nothing and leaves the file system alone. *)
Lemma wait_for_engine_bound n w :
  exists b w',
    wait_for_engine env cfg n w = (Ok b, w')
    /\ same_fs w w'
    /\ (count_sleeps (trace w') <= count_sleeps (trace w) + n)%nat
    /\ count_runs (trace w') = count_runs (trace w).
Proof.
  revert w. induction n as [|n IH]; intros w.
  - exists false, w. split; [reflexivity|]. split; [apply same_fs_refl|].
    split; [lia|reflexivity].
  - cbn [wait_for_engine]. unfold bind at 1, sleep at 1. unfold bind at 1.
    rewrite is_engine_running_eq. cbn [trace log].
    destruct (probe_answer env cfg (EvSleep 1 :: trace w)).
    + do 2 eexists. split; [reflexivity|]. split; [by split|].
      split; [unfold count_sleeps; simpl; lia|reflexivity].
    + destruct (IH (log (EvHttp (version_request cfg)) (log (EvSleep 1) w)))
        as (b & w' & -> & Hfs & Hs & Hr).
      exists b, w'. split; [reflexivity|]. split; [|split].
      * eapply same_fs_trans; [|exact Hfs]. by split.
      * unfold count_sleeps in *. simpl in Hs. lia.
      * by rewrite Hr.
Qed.


Lemma start_engine_bound w :
  let w' := snd (start_engine T env cfg w) in
  same_fs w w'
  /\ count_sleeps (trace w') = count_sleeps (trace w)
  /\ (count_runs (trace w') <= count_runs (trace w) + 1)%nat.
Proof.
  destruct (os_fault env (EvExists (path_str (compose_file cfg))) (trace w)) as [e|] eqn:Hf.
  { rewrite (start_engine_check_fails T env cfg w e Hf).
    split; [by split|]. unfold count_sleeps, count_runs; simpl; split; lia. }
  destruct (present w (path_str (compose_file cfg))) eqn:Hp.
  - rewrite (start_engine_present T env cfg w Hf Hp).
    destruct (proc_run env docker_argv _ _) as [code|e];
      [destruct (code =? 0)|destruct (kind e)];
      (split; [by split|]); unfold count_sleeps, count_runs; simpl; split; lia.
  - rewrite (start_engine_missing T env cfg w Hf Hp).
    split; [by split|]. unfold count_sleeps, count_runs; simpl; split; lia.
Qed.


End Polling.

(** X1: [is_engine_running] never raises and always makes exactly one
    call, the [GET /version] probe; it answers [True] exactly when the
    probe comes back with status 200, so a transport error, a timeout
    or any other status gives [False]. *)
Theorem is_engine_running_answers env cfg w :
  exists b,
    is_engine_running env cfg w = (Ok b, log (EvHttp (version_request cfg)) w)
    /\ (b = true <->
        exists r, http_send env (version_request cfg) (trace w) = Ok r
                  /\ status_code r = 200).
Proof.
  exists (probe_answer env cfg (trace w)). split; [apply is_engine_running_eq|].
  apply probe_answer_true.
Qed.

(** X2: [start_engine] returns [True] exactly when the existence check
    goes through and finds the descriptor file [docker-compose.yml] in
    the project directory, and the [docker compose up -d] command exits
    with status 0. *)
Theorem start_engine_true_iff T env cfg w :
  fst (start_engine T env cfg w) = Ok true
  <-> os_fault env (EvExists (path_str (compose_file cfg))) (trace w) = None
      /\ present w (path_str (compose_file cfg)) = true
      /\ proc_run env docker_argv (Some (path_str (PROJECT_DIR cfg)))
                  (EvExists (path_str (compose_file cfg)) :: trace w) = Ok 0.
Proof.
  destruct (os_fault env (EvExists (path_str (compose_file cfg))) (trace w)) as [e0|] eqn:Hf.
  { rewrite (start_engine_check_fails T env cfg w e0 Hf). split; [done|]. by intros (? & _). }
  destruct (present w (path_str (compose_file cfg))) eqn:Hp.
  - rewrite (start_engine_present T env cfg w Hf Hp). cbn [trace log].
    destruct (proc_run env docker_argv _ _) as [code|e].
    + destruct (Z.eqb_spec code 0) as [->|Hc]; [done|].
      split; [done|]. intros (_ & _ & [= ->]). done.
    + split; [by destruct (kind e)|]. by intros (_ & _ & ?).
  - rewrite (start_engine_missing T env cfg w Hf Hp). split; [done|]. by intros (_ & ? & _).
Qed.



(** X4: whatever the engine, the file system and [docker] answer,
    [ensure_engine_running] sleeps at most 30 times, launches at most
    one child process and itself changes no file and no directory. *)
Theorem ensure_engine_running_bounds T env cfg w :
  same_fs w (snd (ensure_engine_running T env cfg w))
  /\ (count_sleeps (trace (snd (ensure_engine_running T env cfg w)))
      <= count_sleeps (trace w) + 30)%nat
  /\ (count_runs (trace (snd (ensure_engine_running T env cfg w)))
      <= count_runs (trace w) + 1)%nat.
Proof.
  remember (ensure_engine_running T env cfg w) as rw eqn:E.
  unfold ensure_engine_running in E. destruct (AUTO_START_ENGINE cfg); cbn [negb] in E.
  2:{ subst rw. split; [by split|]. simpl. split; lia. }
  unfold bind at 1 in E. rewrite is_engine_running_eq in E.
  destruct (probe_answer env cfg (trace w)).
  { subst rw. split; [by split|]. unfold count_sleeps, count_runs. simpl. split; lia. }
  unfold bind at 1, print_stderr at 1 in E. unfold bind at 1 in E.
  set (w2 := log (EvPrintStderr _) _) in E.
  destruct (start_engine_bound T env cfg w2) as (Hfs & Hs & Hr).
  assert (same_fs w w2) as Hfs2 by (by split).
  assert (count_sleeps (trace w2) = count_sleeps (trace w)) as Hs2 by reflexivity.
  assert (count_runs (trace w2) = count_runs (trace w)) as Hr2 by reflexivity.
  destruct (start_engine T env cfg w2) as [[started|e] w3]; cbn [snd] in *.
  2:{ subst rw. cbn [snd]. split; [by eapply same_fs_trans|]. split; lia. }
  destruct started.
  2:{ subst rw. unfold ret. cbn [snd]. split; [by eapply same_fs_trans|]. split; lia. }
  unfold bind in E.
  destruct (wait_for_engine_bound env cfg 30 w3) as (b & w4 & Hw & Hfs4 & Hs4 & Hr4).
  rewrite Hw in E.
  assert (same_fs w w4) as Hfs5
    by (eapply same_fs_trans; [|exact Hfs4]; by eapply same_fs_trans).
  destruct b; subst rw.
  - unfold ret. cbn [snd]. split; [done|]. split; lia.
  - unfold print_stderr. cbn [snd]. split.
    + eapply same_fs_trans; [exact Hfs5|]. by split.
    + unfold count_sleeps, count_runs in *. simpl. split; lia.
Qed.





(** ** The two calls to the engine, lines 165-187 and 249-271 *)

Section Settings.

Lemma dict_get_set_eq d k v : dict_get (dict_set d k v) k = Some v.
Proof.
  induction d as [|[k' v'] d IH]; simpl.
  - by rewrite String.eqb_refl.
  - destruct (String.eqb k' k) eqn:E; simpl.
    + by rewrite String.eqb_refl.
    + by rewrite E.
Qed.

Lemma dict_get_set_ne d k v k' : k <> k' -> dict_get (dict_set d k v) k' = dict_get d k'.
Proof.
  intros Hne. induction d as [|[k0 v0] d IH]; simpl.
  - by apply String.eqb_neq in Hne as ->.
  - destruct (String.eqb_spec k0 k) as [->|Hk]; simpl.
    + by apply String.eqb_neq in Hne as ->.
    + by rewrite IH.
Qed.

End Settings.

(** X7: the voice settings overwrite exactly the four scale fields of
    the query object: afterwards each of [speedScale], [pitchScale],
    [intonationScale], [volumeScale] holds the supplied value, and every
    other field holds what the engine sent.  A query answer that is not
    a JSON object makes the assignment raise [TypeError]. *)
Theorem apply_settings_overwrites_scales sp pi it vo :
  (forall d, exists d',
      apply_settings (JDict d) sp pi it vo = Ok (JDict d')
      /\ dict_get d' "speedScale" = Some (JFloat sp)
      /\ dict_get d' "pitchScale" = Some (JFloat pi)
      /\ dict_get d' "intonationScale" = Some (JFloat it)
      /\ dict_get d' "volumeScale" = Some (JFloat vo)
      /\ (forall k, k ∉ scale_keys -> dict_get d' k = dict_get d k))
  /\ (forall j, (forall d, j <> JDict d) ->
       exists msg, apply_settings j sp pi it vo = Raise (TypeError msg)).
Proof.
  split.
  - intros d. eexists. split; [reflexivity|].
    repeat split.
    + rewrite !dict_get_set_ne by discriminate. apply dict_get_set_eq.
    + rewrite !dict_get_set_ne by discriminate. apply dict_get_set_eq.
    + rewrite !dict_get_set_ne by discriminate. apply dict_get_set_eq.
    + apply dict_get_set_eq.
    + intros k Hk. unfold scale_keys in Hk.
      rewrite !dict_get_set_ne; [done|..]; intros <-; apply Hk; set_solver.
  - intros j Hj. destruct j; try (by eexists); by destruct (Hj d).
Qed.

Section Synthesis.

Variable T : PyText.
Variable env : Env.
Variable cfg : Config.

(** Everything [synthesize] can do, by what the engine answers. *)
Lemma synthesize_outcomes text sid v w :
  let req1 := audio_query_request cfg text sid in
  let w1 := log (EvHttp req1) w in
  let run := synthesize T env cfg text sid (speed v) (pitch v) (intonation v) (volume v) w in
  (exists e, run = (Raise e, w1)
             /\ (http_send env req1 (trace w) = Raise e
                 \/ (exists r1, http_send env req1 (trace w) = Ok r1
                                 /\ (~ success r1 /\ kind e = HTTPStatusError (status_code r1)
                                     \/ success r1 /\ decoded r1 = Raise e
                                     \/ success r1 /\ exists j, decoded r1 = Ok j
                                                       /\ (forall d, j <> JDict d)
                                                       /\ kind e = OtherException "TypeError"))))
  \/ (exists r1 d,
        http_send env req1 (trace w) = Ok r1 /\ success r1 /\ decoded r1 = Ok (JDict d)
        /\ let req2 := synthesis_request cfg sid (JDict (settings_applied d v)) in
           let w2 := log (EvHttp req2) w1 in
           (exists e, run = (Raise e, w2)
                      /\ (http_send env req2 (trace w1) = Raise e
                          \/ exists r2, http_send env req2 (trace w1) = Ok r2
                                         /\ ~ success r2
                                         /\ kind e = HTTPStatusError (status_code r2)))
           \/ (exists r2, run = (Ok (content r2), w2)
                           /\ http_send env req2 (trace w1) = Ok r2 /\ success r2)).
Proof.
  intros req1 w1 run.
  assert (run = synthesize T env cfg text sid (speed v) (pitch v) (intonation v) (volume v) w)
    as E by reflexivity.
  clearbody run. unfold synthesize, bind, send, response_json, lift in E.
  fold req1 in E. change (log (EvHttp req1) w) with w1 in E.
  destruct (http_send env req1 (trace w)) as [r1|e] eqn:H1.
  2:{ left. exists e. split; [exact E|by left]. }
  unfold raise_for_status at 1 in E.
  destruct ((200 <=? status_code r1) && (status_code r1 <=? 299))%bool eqn:S1.
  2:{ left. eexists. split; [exact E|]. right. exists r1. split; [done|]. left.
      split; [|reflexivity]. unfold success. intros [? ?].
      apply andb_false_iff in S1 as [S1|S1]; apply Z.leb_gt in S1; lia. }
  assert (success r1) as Hs1
    by (apply andb_true_iff in S1 as [? ?]; split; by apply Z.leb_le).
  unfold ret at 1 in E. destruct (decoded r1) as [j|e] eqn:D1.
  2:{ left. exists e. split; [exact E|]. right. exists r1. split; [done|]. right. by left. }
  destruct j as [| | | | |l|d];
    try (left; eexists; split; [exact E|]; right; exists r1; split; [done|];
         right; right; split; [done|]; eexists; split; [exact D1|];
         split; [intros ?; discriminate|reflexivity]).
  right. exists r1, d. split; [done|]. split; [done|]. split; [done|].
  rewrite apply_settings_dict in E. cbn zeta.
  set (req2 := synthesis_request cfg sid (JDict (settings_applied d v))) in *.
  destruct (http_send env req2 (trace w1)) as [r2|e] eqn:H2.
  2:{ left. exists e. split; [exact E|by left]. }
  unfold raise_for_status in E.
  destruct ((200 <=? status_code r2) && (status_code r2 <=? 299))%bool eqn:S2.
  - right. exists r2. split; [exact E|]. split; [done|].
    apply andb_true_iff in S2 as [? ?]; split; by apply Z.leb_le.
  - left. eexists. split; [exact E|]. right. exists r2. split; [done|].
    split; [|reflexivity]. unfold success. intros [? ?].
    apply andb_false_iff in S2 as [S2|S2]; apply Z.leb_gt in S2; lia.
Qed.

End Synthesis.

Section FailedSynthesis.

Variable T : PyText.
Variable env : Env.
Variable cfg : Config.

Lemma synthesize_query_raises text sid s p i v w e :
  http_send env (audio_query_request cfg text sid) (trace w) = Raise e ->
  synthesize T env cfg text sid s p i v w
  = (Raise e, log (EvHttp (audio_query_request cfg text sid)) w).
Proof. intros H. unfold synthesize, bind, send. by rewrite H. Qed.

Lemma synthesize_query_status text sid s p i v w r1 :
  http_send env (audio_query_request cfg text sid) (trace w) = Ok r1 ->
  ~ success r1 ->
  exists msg,
    synthesize T env cfg text sid s p i v w
    = (Raise (mkExn (HTTPStatusError (status_code r1)) msg),
       log (EvHttp (audio_query_request cfg text sid)) w).
Proof.
  intros H Hs. unfold synthesize, bind, send, raise_for_status. rewrite H.
  destruct ((200 <=? status_code r1) && (status_code r1 <=? 299))%bool eqn:S1;
    [|by eexists].
  destruct Hs. apply andb_true_iff in S1 as [? ?]. split; by apply Z.leb_le.
Qed.

Lemma synthesize_query_not_object text sid s p i v w r1 j :
  http_send env (audio_query_request cfg text sid) (trace w) = Ok r1 ->
  success r1 ->
  decoded r1 = Ok j ->
  (forall d, j <> JDict d) ->
  exists msg,
    synthesize T env cfg text sid s p i v w
    = (Raise (TypeError msg), log (EvHttp (audio_query_request cfg text sid)) w).
Proof.
  intros H Hs Hd Hj. unfold synthesize, bind, send, response_json, lift.
  rewrite H, (raise_for_status_success T _ _ Hs). unfold ret at 1. rewrite Hd.
  destruct j; try (by eexists). by destruct (Hj d).
Qed.

(** After a synthesis that raised, [save_audio] only picks its message. *)
Lemma save_audio_failed_synthesis text output_path speaker sp pi it vo w out e w1 :
  (forall p, in_domain p (value p (resolve sp pi it vo))) ->
  normalize_output_path output_path = Ok out ->
  synthesize T env cfg text (default (SPEAKER_ID cfg) speaker)
             (default 1.0%float sp) (default 0.0%float pi)
             (default 1.0%float it) (default 1.0%float vo) w = (Raise e, w1) ->
  save_audio T env cfg text output_path speaker sp pi it vo w
  = (Ok match kind e with
        | ConnectError => connect_error_message cfg
        | HTTPStatusError code => status_error_message code
        | PermissionError => "エラー: ファイルの書き込み権限がありません: " +:+ path_str out
        | _ => other_error_message e
        end, w1).
Proof.
  intros Hall Hout Hsyn. unfold save_audio.
  rewrite (check_ranges_pass T _ _ _ _ Hall), Hout.
  unfold bind at 1, lift at 1. unfold try_except. unfold bind at 1. rewrite Hsyn.
  by destruct (kind e).
Qed.

(** After a synthesis that raised, [speak_text] only picks its message. *)
Lemma speak_text_failed_synthesis text speaker sp pi it vo w e w1 :
  (forall p, in_domain p (value p (resolve sp pi it vo))) ->
  synthesize T env cfg text (default (SPEAKER_ID cfg) speaker)
             (default 1.0%float sp) (default 0.0%float pi)
             (default 1.0%float it) (default 1.0%float vo) w = (Raise e, w1) ->
  speak_text T env cfg text speaker sp pi it vo w
  = (Ok match kind e with
        | ConnectError => connect_error_message cfg
        | HTTPStatusError code => status_error_message code
        | FileNotFoundError =>
            "エラー: ffplayが見つかりません。FFmpegをインストールしてください。"
        | CalledProcessError code =>
            "エラー: 音声再生に失敗しました (code: " +:+ pretty code +:+ ")"
        | _ => other_error_message e
        end, w1).
Proof.
  intros Hall Hsyn. unfold speak_text. rewrite (check_ranges_pass T _ _ _ _ Hall).
  unfold try_except. unfold bind at 1. rewrite Hsyn. by destruct (kind e).
Qed.

(** [list_speakers] by what the engine answers to its one request. *)
Lemma list_speakers_eq w :
  list_speakers T env cfg w
  = (Ok match http_send env (speakers_request cfg) (trace w) with
        | Raise e =>
            match kind e with
            | ConnectError => connect_error_message cfg
            | HTTPStatusError code => status_error_message code
            | _ => other_error_message e
            end
        | Ok r =>
            if ((200 <=? status_code r) && (status_code r <=? 299))%bool then
              match (j <~ decoded r ;; l <~ py_iter j ;; speaker_lines T l) with
              | Ok lines => "利用可能なスピーカー一覧:" +:+ nl +:+ join nl lines
              | Raise e =>
                  match kind e with
                  | ConnectError => connect_error_message cfg
                  | HTTPStatusError code => status_error_message code
                  | _ => other_error_message e
                  end
              end
            else status_error_message (status_code r)
        end,
     log (EvHttp (speakers_request cfg)) w).
Proof.
  unfold list_speakers, try_except, bind, send, response_json, lift, raise_for_status.
  destruct (http_send env (speakers_request cfg) (trace w)) as [r|e];
    [|by destruct (kind e)].
  destruct ((200 <=? status_code r) && (status_code r <=? 299))%bool; [|reflexivity].
  unfold ret at 1. destruct (decoded r) as [j|e]; cbn [rbind]; [|by destruct (kind e)].
  destruct (py_iter j) as [l|e]; cbn [rbind]; [|by destruct (kind e)].
  destruct (speaker_lines T l) as [lines|e]; [reflexivity|by destruct (kind e)].
Qed.

End FailedSynthesis.

(** X8: a synthesis makes one or two requests and nothing else: always
    the audio-query request, and the synthesis request only after a 2xx
    query answer that decodes to a JSON object, with that object and
    the four scale fields overwritten as its body.  It returns audio
    only as the body of a 2xx synthesis answer. *)
Theorem synthesize_requests T env cfg text sid v w :
  let req1 := audio_query_request cfg text sid in
  let run := synthesize T env cfg text sid (speed v) (pitch v) (intonation v) (volume v) w in
  (snd run = log (EvHttp req1) w
   \/ exists r1 d,
        http_send env req1 (trace w) = Ok r1 /\ success r1 /\ decoded r1 = Ok (JDict d)
        /\ snd run = log (EvHttp (synthesis_request cfg sid (JDict (settings_applied d v))))
                         (log (EvHttp req1) w))
  /\ (forall audio, fst run = Ok audio ->
       exists q r2, http_send env (synthesis_request cfg sid q) (EvHttp req1 :: trace w) = Ok r2
                    /\ success r2 /\ content r2 = audio).
Proof.
  intros req1 run.
  destruct (synthesize_outcomes T env cfg text sid v w)
    as [(e & Hrun & _)|(r1 & d & H1 & S1 & D1 & [(e & Hrun & _)|(r2 & Hrun & H2 & S2)])];
    fold req1 in Hrun; fold run in Hrun; rewrite Hrun; cbn [fst snd].
  - split; [by left|]. discriminate.
  - split; [right; by exists r1, d|]. discriminate.
  - split; [right; by exists r1, d|]. intros audio [= <-]. by eexists _, r2.
Qed.

(** X9: when the first request of a tool fails with a connection error,
    [list_speakers], [save_audio] and [speak_text] return the
    connection message, which quotes the configured engine URL, and do
    nothing after that one request. *)
Theorem tools_report_unreachable_engine
    T env cfg text output_path speaker sp pi it vo out w e :
  kind e = ConnectError ->
  (forall p, in_domain p (value p (resolve sp pi it vo))) ->
  normalize_output_path output_path = Ok out ->
  (forall req, http_send env req (trace w) = Raise e) ->
  let req1 := audio_query_request cfg text (default (SPEAKER_ID cfg) speaker) in
  list_speakers T env cfg w
  = (Ok (connect_error_message cfg), log (EvHttp (speakers_request cfg)) w)
  /\ save_audio T env cfg text output_path speaker sp pi it vo w
     = (Ok (connect_error_message cfg), log (EvHttp req1) w)
  /\ speak_text T env cfg text speaker sp pi it vo w
     = (Ok (connect_error_message cfg), log (EvHttp req1) w)
  /\ connect_error_message cfg
     = "エラー: VOICEVOX Engine (" +:+ VOICEVOX_URL cfg
       +:+ ") に接続できません。Dockerコンテナが起動しているか確認してください。".
Proof.
  intros Hk Hall Hout Hdown req1. split; [|split; [|split; [|reflexivity]]].
  - rewrite list_speakers_eq, Hdown. by rewrite Hk.
  - rewrite (save_audio_failed_synthesis T env cfg text output_path speaker sp pi it vo w out
               e (log (EvHttp req1) w) Hall Hout); [by rewrite Hk|].
    apply synthesize_query_raises, Hdown.
  - rewrite (speak_text_failed_synthesis T env cfg text speaker sp pi it vo w
               e (log (EvHttp req1) w) Hall); [by rewrite Hk|].
    apply synthesize_query_raises, Hdown.
Qed.

Lemma tools_report_unreachable_engine_witness :
  list_speakers Sample.text Sample.env_down Sample.cfg Sample.w0
  = (Ok (connect_error_message Sample.cfg),
     log (EvHttp (speakers_request Sample.cfg)) Sample.w0)
  /\ fst (save_audio Sample.text Sample.env_down Sample.cfg "こんにちは" "out/a.wav" None
                     None None None None Sample.w0)
     = Ok (connect_error_message Sample.cfg)
  /\ fst (speak_text Sample.text Sample.env_down Sample.cfg "こんにちは" None
                     None None None None Sample.w0)
     = Ok (connect_error_message Sample.cfg).
Proof.
  destruct (tools_report_unreachable_engine Sample.text Sample.env_down Sample.cfg
              "こんにちは" "out/a.wav" None None None None None (Path "out/a.wav") Sample.w0
              (mkExn ConnectError "All connection attempts failed"))
    as (Hl & Hs & Hp & _).
  - reflexivity.
  - intros p. destruct p; split; reflexivity.
  - reflexivity.
  - intros req. reflexivity.
  - split; [exact Hl|]. split; [by rewrite Hs|by rewrite Hp].
Defined.

(** X10: when the engine answers the first request of a tool with a
    status outside 2xx, the tool returns the API-error message with
    that status code and sends no further request; in particular no
    synthesis is requested, nothing is written and nothing is played. *)
Theorem tools_report_status_error
    T env cfg text output_path speaker sp pi it vo out w r :
  (forall p, in_domain p (value p (resolve sp pi it vo))) ->
  normalize_output_path output_path = Ok out ->
  (forall req, http_send env req (trace w) = Ok r) ->
  ~ success r ->
  let req1 := audio_query_request cfg text (default (SPEAKER_ID cfg) speaker) in
  list_speakers T env cfg w
  = (Ok (status_error_message (status_code r)), log (EvHttp (speakers_request cfg)) w)
  /\ save_audio T env cfg text output_path speaker sp pi it vo w
     = (Ok (status_error_message (status_code r)), log (EvHttp req1) w)
  /\ speak_text T env cfg text speaker sp pi it vo w
     = (Ok (status_error_message (status_code r)), log (EvHttp req1) w).
Proof.
  intros Hall Hout Hr Hs req1.
  destruct (synthesize_query_status T env cfg text (default (SPEAKER_ID cfg) speaker)
              (default 1.0%float sp) (default 0.0%float pi)
              (default 1.0%float it) (default 1.0%float vo) w r (Hr _) Hs) as [msg Hsyn].
  split; [|split].
  - rewrite list_speakers_eq, Hr.
    destruct ((200 <=? status_code r) && (status_code r <=? 299))%bool eqn:S1; [|done].
    destruct Hs. apply andb_true_iff in S1 as [? ?]. split; by apply Z.leb_le.
  - by rewrite (save_audio_failed_synthesis T env cfg text output_path speaker sp pi it vo w
                  out _ _ Hall Hout Hsyn).
  - by rewrite (speak_text_failed_synthesis T env cfg text speaker sp pi it vo w
                  _ _ Hall Hsyn).
Qed.

Lemma tools_report_status_error_witness :
  fst (save_audio Sample.text
         {| http_send := fun _ _ => Ok (mkResponse 503 [] (Ok JNull));
            os_fault := fun _ _ => None;
            proc_run := fun _ _ _ => Ok 0;
            temp_stem := fun _ => "/tmp/tmpk3v9x2" |}
         Sample.cfg "こんにちは" "a.wav" None None None None None Sample.w0)
  = Ok "エラー: VOICEVOX API エラー (status: 503)".
Proof.
  destruct (tools_report_status_error Sample.text
              {| http_send := fun _ _ => Ok (mkResponse 503 [] (Ok JNull));
                 os_fault := fun _ _ => None;
                 proc_run := fun _ _ _ => Ok 0;
                 temp_stem := fun _ => "/tmp/tmpk3v9x2" |}
              Sample.cfg "こんにちは" "a.wav" None None None None None (Path "a.wav")
              Sample.w0 (mkResponse 503 [] (Ok JNull)))
    as (_ & Hs & _).
  - intros p. destruct p; split; reflexivity.
  - reflexivity.
  - intros req. reflexivity.
  - unfold success. simpl. lia.
  - rewrite Hs. reflexivity.
Defined.

(** X11: when the query answer is 2xx but its JSON is not an object (a
    list, a string, a number, null), [save_audio] and [speak_text]
    return the catch-all message for the [TypeError] of the first
    assignment and never send the synthesis request. *)
Theorem tools_report_malformed_query
    T env cfg text output_path speaker sp pi it vo out w r j :
  (forall p, in_domain p (value p (resolve sp pi it vo))) ->
  normalize_output_path output_path = Ok out ->
  let req1 := audio_query_request cfg text (default (SPEAKER_ID cfg) speaker) in
  http_send env req1 (trace w) = Ok r ->
  success r ->
  decoded r = Ok j ->
  (forall d, j <> JDict d) ->
  exists msg,
    save_audio T env cfg text output_path speaker sp pi it vo w
    = (Ok ("エラー: TypeError: " +:+ msg), log (EvHttp req1) w)
    /\ speak_text T env cfg text speaker sp pi it vo w
       = (Ok ("エラー: TypeError: " +:+ msg), log (EvHttp req1) w).
Proof.
  intros Hall Hout req1 Hr Hs Hd Hj.
  destruct (synthesize_query_not_object T env cfg text (default (SPEAKER_ID cfg) speaker)
              (default 1.0%float sp) (default 0.0%float pi)
              (default 1.0%float it) (default 1.0%float vo) w r j Hr Hs Hd Hj) as [msg Hsyn].
  exists msg. split.
  - by rewrite (save_audio_failed_synthesis T env cfg text output_path speaker sp pi it vo w
                  out _ _ Hall Hout Hsyn).
  - by rewrite (speak_text_failed_synthesis T env cfg text speaker sp pi it vo w
                  _ _ Hall Hsyn).
Qed.

Lemma tools_report_malformed_query_witness :
  exists msg,
    fst (save_audio Sample.text
           {| http_send := fun _ _ => Ok (mkResponse 200 [] (Ok (JList [])));
              os_fault := fun _ _ => None;
              proc_run := fun _ _ _ => Ok 0;
              temp_stem := fun _ => "/tmp/tmpk3v9x2" |}
           Sample.cfg "こんにちは" "a.wav" None None None None None Sample.w0)
    = Ok ("エラー: TypeError: " +:+ msg).
Proof.
  destruct (tools_report_malformed_query Sample.text
              {| http_send := fun _ _ => Ok (mkResponse 200 [] (Ok (JList [])));
                 os_fault := fun _ _ => None;
                 proc_run := fun _ _ _ => Ok 0;
                 temp_stem := fun _ => "/tmp/tmpk3v9x2" |}
              Sample.cfg "こんにちは" "a.wav" None None None None None (Path "a.wav")
              Sample.w0 (mkResponse 200 [] (Ok (JList []))) (JList []))
    as (msg & Hs & _).
  - intros p. destruct p; split; reflexivity.
  - reflexivity.
  - reflexivity.
  - unfold success. simpl. lia.
  - reflexivity.
  - intros d. discriminate.
  - exists msg. by rewrite Hs.
Defined.

(** X12: whenever the synthesis raises, for whatever reason, both
    handlers stop there: the world they leave is the one the synthesis
    left (no directory made, no file written, no temporary file, no
    player), and they still return a string. *)
Theorem handlers_stop_after_failed_synthesis
    T env cfg text output_path speaker sp pi it vo out w e w1 :
  (forall p, in_domain p (value p (resolve sp pi it vo))) ->
  normalize_output_path output_path = Ok out ->
  synthesize T env cfg text (default (SPEAKER_ID cfg) speaker)
             (default 1.0%float sp) (default 0.0%float pi)
             (default 1.0%float it) (default 1.0%float vo) w = (Raise e, w1) ->
  (exists msg, save_audio T env cfg text output_path speaker sp pi it vo w = (Ok msg, w1))
  /\ (exists msg, speak_text T env cfg text speaker sp pi it vo w = (Ok msg, w1)).
Proof.
  intros Hall Hout Hsyn. split.
  - eexists. by apply (save_audio_failed_synthesis T env cfg text output_path speaker
                        sp pi it vo w out e w1).
  - eexists. by apply (speak_text_failed_synthesis T env cfg text speaker
                        sp pi it vo w e w1).
Qed.

Lemma handlers_stop_after_failed_synthesis_witness :
  exists msg,
    speak_text Sample.text Sample.env_down Sample.cfg "こんにちは" None
               None None None None Sample.w0
    = (Ok msg, log (EvHttp (audio_query_request Sample.cfg "こんにちは" 8)) Sample.w0).
Proof.
  apply (handlers_stop_after_failed_synthesis Sample.text Sample.env_down Sample.cfg
           "こんにちは" "a.wav" None None None None None (Path "a.wav") Sample.w0
           (mkExn ConnectError "All connection attempts failed")).
  - intros p. destruct p; split; reflexivity.
  - reflexivity.
  - reflexivity.
Defined.

(** ** Listing, lines 82-111 *)

(** X13: [list_speakers] never raises, makes exactly one call, the
    [GET /speakers] request, and touches neither files nor directories,
    whatever the engine answers. *)
Theorem list_speakers_single_request T env cfg w :
  exists msg,
    list_speakers T env cfg w = (Ok msg, log (EvHttp (speakers_request cfg)) w)
    /\ same_fs w (snd (list_speakers T env cfg w)).
Proof.
  rewrite list_speakers_eq. eexists. split; [reflexivity|]. by split.
Qed.

Lemma speaker_lines_missing_name T js catalog d rest :
  Forall2 encodes_speaker js catalog ->
  dict_get d "name" = None ->
  speaker_lines T (js ++ JDict d :: rest) = Raise (KeyError "'name'").
Proof.
  intros Hjs Hd. induction Hjs as [|j sp js catalog (d0 & jl & -> & Hn & Hs & Hst) _ IH].
  - simpl. by rewrite Hd.
  - simpl. rewrite Hn, Hs. simpl. rewrite (style_lines_encoded T _ _ _ Hst). simpl.
    by rewrite IH.
Qed.

(** X14: one speaker entry without a [name] key spoils the whole
    listing: even when every entry before it is well formed, the tool
    returns the catch-all message for [KeyError: 'name'] and none of the
    lines. *)
Theorem list_speakers_missing_name T env cfg w r js catalog d rest :
  http_send env (speakers_request cfg) (trace w) = Ok r ->
  success r ->
  decoded r = Ok (JList (js ++ JDict d :: rest)) ->
  Forall2 encodes_speaker js catalog ->
  dict_get d "name" = None ->
  fst (list_speakers T env cfg w) = Ok "エラー: KeyError: 'name'".
Proof.
  intros Hr [S1 S2] Hd Hjs Hn. rewrite list_speakers_eq, Hr. cbn [fst].
  apply Z.leb_le in S1, S2. rewrite S1, S2, Hd. cbn [andb rbind py_iter].
  by rewrite (speaker_lines_missing_name T js catalog d rest Hjs Hn).
Qed.

Lemma list_speakers_missing_name_witness :
  fst (list_speakers Sample.text
         {| http_send := fun _ _ =>
              Ok (mkResponse 200 []
                    (Ok (JList [JDict [("name", JStr "四国めたん"); ("styles", JList [])];
                                JDict [("styles", JList [])]])));
            os_fault := fun _ _ => None;
            proc_run := fun _ _ _ => Ok 0;
            temp_stem := fun _ => "/tmp/tmpk3v9x2" |}
         Sample.cfg Sample.w0)
  = Ok "エラー: KeyError: 'name'".
Proof.
  apply (list_speakers_missing_name Sample.text _ Sample.cfg Sample.w0
           (mkResponse 200 []
              (Ok (JList [JDict [("name", JStr "四国めたん"); ("styles", JList [])];
                          JDict [("styles", JList [])]])))
           [JDict [("name", JStr "四国めたん"); ("styles", JList [])]]
           [mkSpeaker "四国めたん" []]
           [("styles", JList [])] []).
  - reflexivity.
  - unfold success. simpl. lia.
  - reflexivity.
  - constructor; [|constructor]. eexists _, _.
    split; [reflexivity|]. split; [reflexivity|]. split; [reflexivity|constructor].
  - reflexivity.
Defined.




(** ** What the handlers leave alone *)

Section KeepFacts.

Context {A B : Type} (R : World -> World -> Prop).
Hypothesis R_refl : forall w, R w w.
Hypothesis R_trans : forall w1 w2 w3, R w1 w2 -> R w2 w3 -> R w1 w3.

Lemma keeps_ret (a : A) : keeps R (ret a).
Proof. intros w. apply R_refl. Qed.

Lemma keeps_raise e : keeps R (@raise A e).
Proof. intros w. apply R_refl. Qed.

Lemma keeps_lift (r : Result A) : keeps R (lift r).
Proof. intros w. apply R_refl. Qed.

Lemma keeps_bind (m : M A) (k : A -> M B) :
  keeps R m -> (forall a, keeps R (k a)) -> keeps R (bind m k).
Proof.
  intros Hm Hk w. unfold bind. specialize (Hm w).
  destruct (m w) as [[a|e] w1]; cbn [snd] in *; [|done].
  eapply R_trans; [exact Hm|apply Hk].
Qed.

Lemma keeps_try_except (body : M A) (handler : exn -> M A) :
  keeps R body -> (forall e, keeps R (handler e)) -> keeps R (try_except body handler).
Proof.
  intros Hm Hh w. unfold try_except. specialize (Hm w).
  destruct (body w) as [[a|e] w1]; cbn [snd] in *; [done|].
  eapply R_trans; [exact Hm|apply Hh].
Qed.

Lemma keeps_try_finally (body : M A) (cleanup : M unit) :
  keeps R body -> keeps R cleanup -> keeps R (try_finally body cleanup).
Proof.
  intros Hm Hc w. unfold try_finally. specialize (Hm w).
  destruct (body w) as [r w1]; cbn [snd] in *. specialize (Hc w1).
  destruct (cleanup w1) as [[[]|e] w2]; cbn [snd] in *; by eapply R_trans.
Qed.

End KeepFacts.

Section KeepCalls.

Variable T : PyText.
Variable env : Env.
Variable cfg : Config.
Variable R : World -> World -> Prop.
Hypothesis R_refl : forall w, R w w.
Hypothesis R_trans : forall w1 w2 w3, R w1 w2 -> R w2 w3 -> R w1 w3.
Hypothesis R_log : forall ev w, R w (log ev w).

Lemma keeps_send req : keeps R (send env req).
Proof. intros w. apply R_log. Qed.

Lemma keeps_raise_for_status req r : keeps R (raise_for_status T req r).
Proof.
  unfold raise_for_status. destruct (_ && _)%bool; [by apply keeps_ret|by apply keeps_raise].
Qed.

Lemma keeps_os_call ev effect :
  (forall w, R w (effect w)) -> keeps R (os_call env ev effect).
Proof.
  intros Heff w. unfold os_call. destruct (os_fault env ev (trace w)); cbn [snd].
  - apply R_log.
  - eapply R_trans; [apply Heff|apply R_log].
Qed.

Lemma keeps_subprocess_run argv cwd check : keeps R (subprocess_run T env argv cwd check).
Proof.
  intros w. unfold subprocess_run.
  destruct (proc_run env argv cwd (trace w)) as [code|e];
    [destruct (check && negb (code =? 0))%bool|]; apply R_log.
Qed.

Lemma keeps_synthesize text sid s p i v : keeps R (synthesize T env cfg text sid s p i v).
Proof.
  unfold synthesize.
  apply keeps_bind; [done|apply keeps_send|]. intros r1.
  apply keeps_bind; [done|apply keeps_raise_for_status|]. intros _.
  apply keeps_bind; [done|by apply keeps_lift|]. intros q.
  apply keeps_bind; [done|by apply keeps_lift|]. intros q'.
  apply keeps_bind; [done|apply keeps_send|]. intros r2.
  apply keeps_bind; [done|apply keeps_raise_for_status|]. intros _.
  by apply keeps_ret.
Qed.

End KeepCalls.

Section Frames.

Variable T : PyText.
Variable env : Env.
Variable cfg : Config.

Lemma same_files_but_refl path w : same_files_but path w w.
Proof. by split. Qed.

Lemma same_files_but_trans path w1 w2 w3 :
  same_files_but path w1 w2 -> same_files_but path w2 w3 -> same_files_but path w1 w3.
Proof.
  intros [H1 D1] [H2 D2]. split; [|set_solver].
  intros f Hf. by rewrite H2, H1.
Qed.

Lemma same_but_wav_refl w : same_but_wav w w.
Proof. by split. Qed.

Lemma same_but_wav_trans w1 w2 w3 :
  same_but_wav w1 w2 -> same_but_wav w2 w3 -> same_but_wav w1 w3.
Proof.
  intros [H1 D1] [H2 D2]. split; [|congruence].
  intros f Hf. by rewrite H2, H1.
Qed.

Lemma endswith_app sfx a : endswith sfx (a +:+ sfx) = true.
Proof.
  unfold endswith. rewrite len_app. apply andb_true_iff. split.
  - apply Nat.leb_le. lia.
  - replace (len a + len sfx - len sfx)%nat with (len a) by lia.
    rewrite drop_app_len. apply String.eqb_refl.
Qed.

Lemma not_wav_ne stem f : endswith ".wav" f = false -> stem +:+ ".wav" <> f.
Proof. intros Hf <-. by rewrite endswith_app in Hf. Qed.

(** The temporary file, the player and the cleanup touch files named
    [*.wav] only. *)
Lemma keeps_play audio : keeps same_but_wav (play T env audio).
Proof.
  intros w. unfold play, bind, NamedTemporaryFile, temp_write, os_call, ret.
  set (path := temp_stem env (trace w) +:+ ".wav").
  assert (forall f, endswith ".wav" f = false -> path <> f) as Hne
    by (intros f; apply not_wav_ne).
  destruct (os_fault env (EvTempCreate path) (trace w)); [by split|].
  cbn [trace log files dirs].
  destruct (os_fault env (EvTempWrite path audio) _).
  { split; [|reflexivity]. intros f Hf. cbn [snd files log].
    by rewrite lookup_insert_ne by by apply Hne. }
  unfold play_and_unlink, try_finally, bind, subprocess_run, unlink, os_call, ret.
  cbn [trace log files dirs andb].
  destruct (proc_run env (ffplay_argv path) None _) as [code|e];
    [destruct (negb (code =? 0))|];
    destruct (os_fault env (EvUnlink path) _);
    (split; [|reflexivity]); intros f Hf; cbn [snd files log];
    rewrite ?lookup_delete_ne, !lookup_insert_ne by (by apply Hne); reflexivity.
Qed.

End Frames.

(** X16: whatever the engine and the file system do, [save_audio]
    changes no file other than the normalized output path and removes
    no directory; this holds for every outcome, errors included. *)
Theorem save_audio_touches_only_output
    T env cfg text output_path speaker sp pi it vo out w :
  normalize_output_path output_path = Ok out ->
  same_files_but (path_str out) w
                 (snd (save_audio T env cfg text output_path speaker sp pi it vo w)).
Proof.
  intros Hout. unfold save_audio.
  destruct (check_ranges _ _ _ _ _); [apply same_files_but_refl|].
  rewrite Hout. unfold bind at 1, lift at 1.
  pose proof (same_files_but_refl (path_str out)) as Hrefl.
  pose proof (same_files_but_trans (path_str out)) as Htrans.
  revert w. apply keeps_try_except; [done| |].
  - apply keeps_bind; [done|apply keeps_synthesize; [done|done|by split]|]. intros audio.
    apply keeps_bind; [done| |].
    { apply keeps_os_call; [done|by split|]. intros w. split; [done|]. cbn. set_solver. }
    intros _. apply keeps_bind; [done| |intros _; by apply keeps_ret].
    apply keeps_os_call; [done|by split|]. intros w. split; [|done].
    intros f Hf. cbn. by rewrite lookup_insert_ne.
  - intros e. destruct (kind e); by apply keeps_ret.
Qed.

Lemma save_audio_touches_only_output_witness :
  same_files_but "x/y/clip.wav" Scenario.w_project
    (snd (save_audio Sample.text Sample.env Sample.cfg "こんにちは" "x/y/clip" None
                     None None None None Scenario.w_project)).
Proof.
  apply (save_audio_touches_only_output Sample.text Sample.env Sample.cfg "こんにちは"
           "x/y/clip" None None None None None (Path "x/y/clip.wav") Scenario.w_project).
  reflexivity.
Defined.

(** [speak_text] leaves the directories and every file whose name does
    not end in [.wav]. *)
Lemma speak_text_keeps_but_wav T env cfg text speaker sp pi it vo w :
  same_but_wav w (snd (speak_text T env cfg text speaker sp pi it vo w)).
Proof.
  unfold speak_text. destruct (check_ranges _ _ _ _ _); [apply same_but_wav_refl|].
  pose proof same_but_wav_refl as Hrefl. pose proof same_but_wav_trans as Htrans.
  revert w. apply keeps_try_except; [done| |].
  - apply keeps_bind; [done|apply keeps_synthesize; [done|done|by split]|]. intros audio.
    apply keeps_bind; [done|apply keeps_play|]. intros _. by apply keeps_ret.
  - intros e. destruct (kind e); by apply keeps_ret.
Qed.

Lemma speak_text_touches_only_wav_dirs T env cfg text speaker sp pi it vo w :
  dirs (snd (speak_text T env cfg text speaker sp pi it vo w)) = dirs w.
Proof. by destruct (speak_text_keeps_but_wav T env cfg text speaker sp pi it vo w). Qed.

(** The temporary file, the player and the cleanup touch one file only:
    the temporary file, under the name picked when it is created. *)
Lemma play_frame T env audio w :
  forall f, f <> temp_stem env (trace w) +:+ ".wav" ->
            files (snd (play T env audio w)) !! f = files w !! f.
Proof.
  intros f Hne. unfold play, bind, NamedTemporaryFile, temp_write, os_call, ret.
  set (path := temp_stem env (trace w) +:+ ".wav") in *.
  assert (path <> f) as Hne' by congruence.
  destruct (os_fault env (EvTempCreate path) (trace w)); [reflexivity|].
  cbn [trace log files dirs].
  destruct (os_fault env (EvTempWrite path audio) _).
  { cbn [snd files log]. by rewrite lookup_insert_ne. }
  unfold play_and_unlink, try_finally, bind, subprocess_run, unlink, os_call, ret.
  cbn [trace log files dirs andb].
  destruct (proc_run env (ffplay_argv path) None _) as [code|e];
    [destruct (negb (code =? 0))|];
    destruct (os_fault env (EvUnlink path) _);
    cbn [snd files log];
    rewrite ?lookup_delete_ne, !lookup_insert_ne by done; reflexivity.
Qed.

(** X17: whatever the engine, the file system and the player answer,
    [speak_text] itself creates and removes no directory, and the only
    file it may change is its own temporary file: the one under the
    name that [tempfile] picks, with the suffix [.wav], once the
    synthesis is done.  Every other file, other [.wav] files included,
    is left as it was. *)
Theorem speak_text_touches_only_temp_file T env cfg text speaker sp pi it vo w :
  let w1 := snd (synthesize T env cfg text (default (SPEAKER_ID cfg) speaker)
                            (default 1.0%float sp) (default 0.0%float pi)
                            (default 1.0%float it) (default 1.0%float vo) w) in
  let path := temp_stem env (trace w1) +:+ ".wav" in
  let w' := snd (speak_text T env cfg text speaker sp pi it vo w) in
  endswith ".wav" path = true
  /\ (forall f, f <> path -> files w' !! f = files w !! f)
  /\ dirs w' = dirs w.
Proof.
  intros w1 path w'. split; [apply endswith_app|].
  assert (same_fs w w1) as [Hf1 Hd1].
  { apply (keeps_synthesize T env cfg same_fs same_fs_refl same_fs_trans
             (fun ev w0 => conj eq_refl eq_refl)). }
  pose proof (speak_text_touches_only_wav_dirs T env cfg text speaker sp pi it vo w) as Hd.
  split; [|exact Hd].
  subst w'. unfold speak_text. destruct (check_ranges _ _ _ _ _); [done|].
  unfold try_except. unfold bind at 1. fold w1.
  destruct (synthesize T env cfg text _ _ _ _ _ w) as [[audio|e] w1'] eqn:Hsyn;
    cbn [snd] in w1; subst w1.
  2:{ intros f _. destruct (kind e); unfold ret; cbn [snd]; by rewrite Hf1. }
  intros f Hne. unfold bind.
  pose proof (play_frame T env audio w1' f Hne) as Hplay.
  destruct (play T env audio w1') as [[[]|e] w2]; cbn [snd] in *.
  - unfold ret. cbn [snd]. by rewrite Hplay, Hf1.
  - destruct (kind e); unfold ret; cbn [snd]; by rewrite Hplay, Hf1.
Qed.

(** X18: when the output file cannot be written for lack of permission,
    [save_audio] returns the permission message that names the
    normalized path; the file keeps its old content, but the parent
    directories have already been created.  When already the creation
    of the directories is refused, the same message is returned and
    nothing has changed. *)
Theorem save_audio_permission_denied
    T env cfg text output_path speaker sp pi it vo out w audio w1 e :
  (forall p, in_domain p (value p (resolve sp pi it vo))) ->
  normalize_output_path output_path = Ok out ->
  synthesize T env cfg text (default (SPEAKER_ID cfg) speaker)
             (default 1.0%float sp) (default 0.0%float pi)
             (default 1.0%float it) (default 1.0%float vo) w = (Ok audio, w1) ->
  kind e = PermissionError ->
  let made := EvMkdir (path_str (parent out)) in
  let written := EvWriteBytes (path_str out) audio in
  let msg := "エラー: ファイルの書き込み権限がありません: " +:+ path_str out in
  (os_fault env made (trace w1) = Some e ->
   save_audio T env cfg text output_path speaker sp pi it vo w = (Ok msg, log made w1))
  /\ (os_fault env made (trace w1) = None ->
      os_fault env written (made :: trace w1) = Some e ->
      save_audio T env cfg text output_path speaker sp pi it vo w
      = (Ok msg,
         mkWorld (files w1)
                 (dirs w1 ∪ list_to_set (path_str <$> lineage (parent out)))
                 (written :: made :: trace w1))).
Proof.
  intros Hall Hout Hsyn Hk made written msg. subst made written msg.
  split; [intros F1|intros F1 F2];
    unfold save_audio; rewrite (check_ranges_pass T _ _ _ _ Hall), Hout;
    unfold bind at 1, lift at 1; unfold try_except; unfold bind at 1; rewrite Hsyn;
    unfold bind, mkdir_parents, write_bytes, os_call; rewrite F1.
  - by rewrite Hk.
  - cbn [trace log]. rewrite F2. by rewrite Hk.
Qed.

Lemma save_audio_permission_denied_witness :
  fst (save_audio Sample.text
         {| http_send := fun req _ => Sample.engine req;
            os_fault := fun ev _ =>
              match ev with
              | EvWriteBytes _ _ => Some (mkExn PermissionError "[Errno 13] Permission denied")
              | _ => None
              end;
            proc_run := fun _ _ _ => Ok 0;
            temp_stem := fun _ => "/tmp/tmpk3v9x2" |}
         Sample.cfg "こんにちは" "/etc/clip" None None None None None Sample.w0)
  = Ok "エラー: ファイルの書き込み権限がありません: /etc/clip.wav".
Proof.
  destruct (save_audio_permission_denied Sample.text
              {| http_send := fun req _ => Sample.engine req;
                 os_fault := fun ev _ =>
                   match ev with
                   | EvWriteBytes _ _ =>
                       Some (mkExn PermissionError "[Errno 13] Permission denied")
                   | _ => None
                   end;
                 proc_run := fun _ _ _ => Ok 0;
                 temp_stem := fun _ => "/tmp/tmpk3v9x2" |}
              Sample.cfg "こんにちは" "/etc/clip" None None None None None
              (Path "/etc/clip.wav") Sample.w0 Sample.payload
              (log (EvHttp (synthesis_request Sample.cfg 8
                     (JDict (settings_applied
                               [("speedScale", JFloat 1.0); ("kana", JStr "コンニチワ")]
                               (resolve None None None None)))))
                   (log (EvHttp (audio_query_request Sample.cfg "こんにちは" 8)) Sample.w0))
              (mkExn PermissionError "[Errno 13] Permission denied"))
    as [_ Hw].
  - intros p. destruct p; split; reflexivity.
  - reflexivity.
  - reflexivity.
  - reflexivity.
  - rewrite Hw; reflexivity.
Defined.

(** ** Playing, lines 274-286 *)

Section Playing.

Variable T : PyText.
Variable env : Env.
Variable cfg : Config.

(** [speak_text] from a synthesis that went well to the end of [play]. *)
Lemma speak_text_after_synthesis text speaker sp pi it vo w audio w1 :
  (forall p, in_domain p (value p (resolve sp pi it vo))) ->
  synthesize T env cfg text (default (SPEAKER_ID cfg) speaker)
             (default 1.0%float sp) (default 0.0%float pi)
             (default 1.0%float it) (default 1.0%float vo) w = (Ok audio, w1) ->
  speak_text T env cfg text speaker sp pi it vo w
  = match play T env audio w1 with
    | (Ok _, w') => (Ok (played_message text), w')
    | (Raise e, w') =>
        (Ok match kind e with
            | ConnectError => connect_error_message cfg
            | HTTPStatusError code => status_error_message code
            | FileNotFoundError =>
                "エラー: ffplayが見つかりません。FFmpegをインストールしてください。"
            | CalledProcessError code =>
                "エラー: 音声再生に失敗しました (code: " +:+ pretty code +:+ ")"
            | _ => other_error_message e
            end, w')
    end.
Proof.
  intros Hall Hsyn. unfold speak_text. rewrite (check_ranges_pass T _ _ _ _ Hall).
  unfold try_except. unfold bind at 1. rewrite Hsyn. unfold bind at 1.
  destruct (play T env audio w1) as [[[]|e] w']; [reflexivity|by destruct (kind e)].
Qed.

Lemma play_write_fails audio w e :
  let path := temp_stem env (trace w) +:+ ".wav" in
  os_fault env (EvTempCreate path) (trace w) = None ->
  os_fault env (EvTempWrite path audio) (EvTempCreate path :: trace w) = Some e ->
  play T env audio w
  = (Raise e,
     mkWorld (<[path := []]> (files w)) (dirs w)
             (EvTempWrite path audio :: EvTempCreate path :: trace w)).
Proof.
  intros path F1 F2. subst path.
  unfold play, bind, NamedTemporaryFile, temp_write, os_call.
  rewrite F1. cbn [trace log]. by rewrite F2.
Qed.

Lemma play_unlink_fails audio w e :
  let path := temp_stem env (trace w) +:+ ".wav" in
  let played := EvRun (ffplay_argv path) None
                :: EvTempWrite path audio :: EvTempCreate path :: trace w in
  os_fault env (EvTempCreate path) (trace w) = None ->
  os_fault env (EvTempWrite path audio) (EvTempCreate path :: trace w) = None ->
  os_fault env (EvUnlink path) played = Some e ->
  play T env audio w
  = (Raise e,
     mkWorld (<[path := audio]> (<[path := []]> (files w))) (dirs w)
             (EvUnlink path :: played)).
Proof.
  intros path played F1 F2 F3. subst path played.
  unfold play, bind, NamedTemporaryFile, temp_write, os_call, ret.
  rewrite F1. cbn [trace log files dirs]. rewrite F2.
  unfold play_and_unlink, try_finally, bind, subprocess_run, unlink, os_call, ret.
  cbn [trace log files dirs andb].
  destruct (proc_run env _ None _) as [code|e'];
    [destruct (negb (code =? 0))|]; cbn [trace log files dirs]; by rewrite F3.
Qed.

End Playing.

(** X19: when writing the audio into the temporary file fails,
    [speak_text] returns an error string without ever starting the
    player or calling [os.unlink]: the temporary file it has just
    created is left behind. *)
Theorem speak_text_leaves_file_when_write_fails
    T env cfg text speaker sp pi it vo w audio w1 e :
  (forall p, in_domain p (value p (resolve sp pi it vo))) ->
  synthesize T env cfg text (default (SPEAKER_ID cfg) speaker)
             (default 1.0%float sp) (default 0.0%float pi)
             (default 1.0%float it) (default 1.0%float vo) w = (Ok audio, w1) ->
  let path := temp_stem env (trace w1) +:+ ".wav" in
  os_fault env (EvTempCreate path) (trace w1) = None ->
  os_fault env (EvTempWrite path audio) (EvTempCreate path :: trace w1) = Some e ->
  exists msg w',
    speak_text T env cfg text speaker sp pi it vo w = (Ok msg, w')
    /\ trace w' = EvTempWrite path audio :: EvTempCreate path :: trace w1
    /\ is_Some (files w' !! path).
Proof.
  intros Hall Hsyn path F1 F2.
  rewrite (speak_text_after_synthesis T env cfg text speaker sp pi it vo w audio w1 Hall Hsyn).
  rewrite (play_write_fails T env audio w1 e F1 F2).
  do 2 eexists. split; [reflexivity|]. split; [reflexivity|].
  cbn [files]. fold path. rewrite lookup_insert_eq. by eexists.
Qed.

Lemma speak_text_leaves_file_when_write_fails_witness :
  exists msg w',
    speak_text Sample.text
      {| http_send := fun req _ => Sample.engine req;
         os_fault := fun ev _ =>
           match ev with
           | EvTempWrite _ _ => Some (mkExn (OtherException "OSError")
                                            "[Errno 28] No space left on device")
           | _ => None
           end;
         proc_run := fun _ _ _ => Ok 0;
         temp_stem := fun _ => "/tmp/tmpk3v9x2" |}
      Sample.cfg "こんにちは" None None None None None Sample.w0 = (Ok msg, w')
    /\ is_Some (files w' !! "/tmp/tmpk3v9x2.wav").
Proof.
  destruct (speak_text_leaves_file_when_write_fails Sample.text
              {| http_send := fun req _ => Sample.engine req;
                 os_fault := fun ev _ =>
                   match ev with
                   | EvTempWrite _ _ => Some (mkExn (OtherException "OSError")
                                                    "[Errno 28] No space left on device")
                   | _ => None
                   end;
                 proc_run := fun _ _ _ => Ok 0;
                 temp_stem := fun _ => "/tmp/tmpk3v9x2" |}
              Sample.cfg "こんにちは" None None None None None Sample.w0 Sample.payload
              (log (EvHttp (synthesis_request Sample.cfg 8
                     (JDict (settings_applied
                               [("speedScale", JFloat 1.0); ("kana", JStr "コンニチワ")]
                               (resolve None None None None)))))
                   (log (EvHttp (audio_query_request Sample.cfg "こんにちは" 8)) Sample.w0))
              (mkExn (OtherException "OSError") "[Errno 28] No space left on device"))
    as (msg & w' & Hres & _ & Hfile).
  - intros p. destruct p; split; reflexivity.
  - reflexivity.
  - reflexivity.
  - reflexivity.
  - exists msg, w'. split; [exact Hres|exact Hfile].
Defined.

(** X20: when [os.unlink] itself fails, its exception replaces the
    outcome of the player, whatever that outcome was: [os.unlink] is
    still called right after the player, a [FileNotFoundError] from it
    makes [speak_text] return the ffplay-not-found message even though
    the player was started, and a [PermissionError] from it is reported
    by the catch-all message, the temporary file then staying where it
    is. *)
Theorem speak_text_unlink_failure_masks_player
    T env cfg text speaker sp pi it vo w audio w1 e :
  (forall p, in_domain p (value p (resolve sp pi it vo))) ->
  synthesize T env cfg text (default (SPEAKER_ID cfg) speaker)
             (default 1.0%float sp) (default 0.0%float pi)
             (default 1.0%float it) (default 1.0%float vo) w = (Ok audio, w1) ->
  let path := temp_stem env (trace w1) +:+ ".wav" in
  let played := EvRun (ffplay_argv path) None
                :: EvTempWrite path audio :: EvTempCreate path :: trace w1 in
  os_fault env (EvTempCreate path) (trace w1) = None ->
  os_fault env (EvTempWrite path audio) (EvTempCreate path :: trace w1) = None ->
  os_fault env (EvUnlink path) played = Some e ->
  let run := speak_text T env cfg text speaker sp pi it vo w in
  trace (snd run) = EvUnlink path :: played
  /\ (kind e = FileNotFoundError ->
      fst run = Ok "エラー: ffplayが見つかりません。FFmpegをインストールしてください。")
  /\ (kind e = PermissionError ->
      fst run = Ok (other_error_message e) /\ is_Some (files (snd run) !! path)).
Proof.
  intros Hall Hsyn path played F1 F2 F3 run. subst run.
  rewrite (speak_text_after_synthesis T env cfg text speaker sp pi it vo w audio w1 Hall Hsyn).
  rewrite (play_unlink_fails T env audio w1 e F1 F2 F3). cbn [fst snd trace files].
  split; [reflexivity|]. split; [by intros ->|].
  intros ->. split; [reflexivity|]. fold path. rewrite lookup_insert_eq. by eexists.
Qed.

Lemma speak_text_unlink_failure_masks_player_witness :
  fst (speak_text Sample.text
         {| http_send := fun req _ => Sample.engine req;
            os_fault := fun ev _ =>
              match ev with
              | EvUnlink _ => Some (mkExn FileNotFoundError "[Errno 2] No such file or directory")
              | _ => None
              end;
            proc_run := fun _ _ _ => Ok 0;
            temp_stem := fun _ => "/tmp/tmpk3v9x2" |}
         Sample.cfg "こんにちは" None None None None None Sample.w0)
  = Ok "エラー: ffplayが見つかりません。FFmpegをインストールしてください。".
Proof.
  destruct (speak_text_unlink_failure_masks_player Sample.text
              {| http_send := fun req _ => Sample.engine req;
                 os_fault := fun ev _ =>
                   match ev with
                   | EvUnlink _ =>
                       Some (mkExn FileNotFoundError "[Errno 2] No such file or directory")
                   | _ => None
                   end;
                 proc_run := fun _ _ _ => Ok 0;
                 temp_stem := fun _ => "/tmp/tmpk3v9x2" |}
              Sample.cfg "こんにちは" None None None None None Sample.w0 Sample.payload
              (log (EvHttp (synthesis_request Sample.cfg 8
                     (JDict (settings_applied
                               [("speedScale", JFloat 1.0); ("kana", JStr "コンニチワ")]
                               (resolve None None None None)))))
                   (log (EvHttp (audio_query_request Sample.cfg "こんにちは" 8)) Sample.w0))
              (mkExn FileNotFoundError "[Errno 2] No such file or directory"))
    as (_ & Hmsg & _).
  - intros p. destruct p; split; reflexivity.
  - reflexivity.
  - reflexivity.
  - reflexivity.
  - reflexivity.
  - apply Hmsg. reflexivity.
Defined.

Section Preview.

Lemma char_take_all n s : (char_len s <= n)%nat -> char_take n s = s.
Proof.
  revert n. induction s as [|c s IH]; intros n H; [reflexivity|].
  simpl in *. destruct (is_continuation c).
  - by rewrite IH.
  - destruct n as [|n]; [lia|]. rewrite IH; [done|lia].
Qed.

Lemma char_len_char_take n s : char_len (char_take n s) = Nat.min n (char_len s).
Proof.
  revert n. induction s as [|c s IH]; intros n; simpl; [by rewrite Nat.min_0_r|].
  destruct (is_continuation c) eqn:E.
  - simpl. by rewrite E, IH.
  - destruct n as [|n]; [done|]. simpl. by rewrite E, IH.
Qed.

(** A prefix in characters is a prefix in bytes. *)
Lemma char_take_prefix n s : exists rest, s = char_take n s +:+ rest.
Proof.
  revert n. induction s as [|c s IH]; intros n; [by exists ""|].
  simpl. destruct (is_continuation c).
  - destruct (IH n) as [rest Hr]. exists rest. by rewrite app_cons, <- Hr.
  - destruct n as [|n]; [by eexists|].
    destruct (IH n) as [rest Hr]. exists rest. by rewrite app_cons, <- Hr.
Qed.

End Preview.

(** X21: the success message of [speak_text] quotes the whole text when
    it has at most 20 characters, and otherwise its first 20 characters
    (a prefix of the text, cut between characters) followed by three
    dots. *)
Theorem played_message_preview text :
  ((char_len text <= 20)%nat ->
   played_message text = "「" +:+ text +:+ "」を再生しました")
  /\ ((20 < char_len text)%nat ->
      played_message text = "「" +:+ char_take 20 text +:+ "...」を再生しました"
      /\ char_len (char_take 20 text) = 20%nat
      /\ exists rest, text = char_take 20 text +:+ rest).
Proof.
  unfold played_message. split.
  - intros H. rewrite (char_take_all 20 text H).
    by apply Nat.ltb_ge in H as ->.
  - intros H. split; [by apply Nat.ltb_lt in H as ->|].
    split; [rewrite char_len_char_take; lia|apply char_take_prefix].
Qed.

Lemma played_message_preview_witness :
  played_message "こんにちは" = "「こんにちは」を再生しました"
  /\ played_message "吾輩は猫である。名前はまだ無い。どこで生れたかとんと見当がつかぬ。"
     = "「吾輩は猫である。名前はまだ無い。どこで生...」を再生しました".
Proof.
  split.
  - apply (proj1 (played_message_preview "こんにちは")). vm_compute. lia.
  - apply (proj2 (played_message_preview
                    "吾輩は猫である。名前はまだ無い。どこで生れたかとんと見当がつかぬ。")).
    vm_compute. lia.
Defined.

(** X22: when the caller gives no speaker, both handlers use the
    configured default: with valid voice parameters the first request
    they send is the audio query for [SPEAKER_ID], and every later
    request carries [SPEAKER_ID] as well. *)
Theorem default_speaker_is_used T env cfg text output_path sp pi it vo out w :
  (forall p, in_domain p (value p (resolve sp pi it vo))) ->
  normalize_output_path output_path = Ok out ->
  (exists evs,
      trace (snd (save_audio T env cfg text output_path None sp pi it vo w))
      = evs ++ EvHttp (audio_query_request cfg text (SPEAKER_ID cfg)) :: trace w
      /\ Forall (carries_speaker (SPEAKER_ID cfg)) evs)
  /\ (exists evs,
        trace (snd (speak_text T env cfg text None sp pi it vo w))
        = evs ++ EvHttp (audio_query_request cfg text (SPEAKER_ID cfg)) :: trace w
        /\ Forall (carries_speaker (SPEAKER_ID cfg)) evs).
Proof.
  intros Hall Hout. split.
  - apply (save_audio_forwards T env cfg text output_path None sp pi it vo out Hall Hout w).
  - apply (speak_text_forwards T env cfg text None sp pi it vo Hall w).
Qed.

Lemma default_speaker_is_used_witness :
  exists evs,
    trace (snd (speak_text Sample.text Sample.env Sample.cfg "こんにちは" None
                           None None None None Sample.w0))
    = evs ++ [EvHttp (audio_query_request Sample.cfg "こんにちは" 8)]
    /\ Forall (carries_speaker 8) evs.
Proof.
  apply (default_speaker_is_used Sample.text Sample.env Sample.cfg "こんにちは" "a.wav"
           None None None None (Path "a.wav") Sample.w0).
  - intros p. destruct p; split; reflexivity.
  - reflexivity.
Defined.

(** ** The speaker identifier on its way to the engine (C9) *)

Section SpeakerPath.

Variable T : PyText.
Variable env : Env.
Variable cfg : Config.

(** After a 2xx query answer that is a JSON object the synthesis request
    is sent, whatever comes of it. *)
Lemma synthesize_after_query text sid v w r1 d :
  http_send env (audio_query_request cfg text sid) (trace w) = Ok r1 ->
  success r1 ->
  decoded r1 = Ok (JDict d) ->
  exists r,
    synthesize T env cfg text sid (speed v) (pitch v) (intonation v) (volume v) w
    = (r, log (EvHttp (synthesis_request cfg sid (JDict (settings_applied d v))))
              (log (EvHttp (audio_query_request cfg text sid)) w)).
Proof.
  intros H1 S1 D1. unfold synthesize, bind, send, response_json, lift.
  rewrite H1, (raise_for_status_success T _ _ S1). unfold ret at 1. rewrite D1.
  rewrite apply_settings_dict. cbn [trace log].
  destruct (http_send env (synthesis_request _ _ _) _) as [r2|e]; [|by eexists].
  unfold raise_for_status.
  destruct ((200 <=? status_code r2) && (status_code r2 <=? 299))%bool;
    eexists; reflexivity.
Qed.

(** What a handler logs after its synthesis, when neither the rest of
    the [try] body nor the [except] clauses log anything but [P]. *)
Lemma after_synthesis {A} (P : Event -> Prop) (m : M bytes) (k : bytes -> M A)
      (handler : exn -> M A) w r w2 tr :
  m w = (r, w2) ->
  trace w2 = tr ->
  (forall a, only_adds P (k a)) ->
  (forall e, only_adds P (handler e)) ->
  exists evs, trace (snd (try_except (bind m k) handler w)) = evs ++ tr
              /\ Forall P evs.
Proof.
  intros Hm <- Hk Hh.
  assert (try_except (bind m k) handler w = try_except (bind (lift r) k) handler w2) as ->
    by (unfold try_except, bind, lift; by rewrite Hm).
  apply only_adds_try_except; [|exact Hh].
  apply only_adds_bind; [apply only_adds_lift|exact Hk].
Qed.

Lemma save_audio_after_query text output_path speaker sp pi it vo out w r1 d :
  (forall p, in_domain p (value p (resolve sp pi it vo))) ->
  normalize_output_path output_path = Ok out ->
  http_send env (audio_query_request cfg text (default (SPEAKER_ID cfg) speaker)) (trace w)
  = Ok r1 ->
  success r1 ->
  decoded r1 = Ok (JDict d) ->
  exists evs,
    trace (snd (save_audio T env cfg text output_path speaker sp pi it vo w))
    = evs ++ EvHttp (synthesis_request cfg (default (SPEAKER_ID cfg) speaker)
                       (JDict (settings_applied d (resolve sp pi it vo))))
          :: EvHttp (audio_query_request cfg text (default (SPEAKER_ID cfg) speaker))
          :: trace w
    /\ Forall not_request evs.
Proof.
  intros Hall Hout H1 S1 D1.
  destruct (synthesize_after_query text (default (SPEAKER_ID cfg) speaker)
              (resolve sp pi it vo) w r1 d H1 S1 D1) as [r Hsyn].
  unfold save_audio. rewrite (check_ranges_pass T _ _ _ _ Hall), Hout.
  unfold bind at 1, lift at 1.
  eapply (after_synthesis not_request); [exact Hsyn|reflexivity| |].
  - intros audio.
    apply only_adds_bind; [by apply only_adds_os_call|]. intros _.
    apply only_adds_bind; [by apply only_adds_os_call|]. intros _.
    apply only_adds_ret.
  - intros e. destruct (kind e); apply only_adds_ret.
Qed.

Lemma speak_text_after_query text speaker sp pi it vo w r1 d :
  (forall p, in_domain p (value p (resolve sp pi it vo))) ->
  http_send env (audio_query_request cfg text (default (SPEAKER_ID cfg) speaker)) (trace w)
  = Ok r1 ->
  success r1 ->
  decoded r1 = Ok (JDict d) ->
  exists evs,
    trace (snd (speak_text T env cfg text speaker sp pi it vo w))
    = evs ++ EvHttp (synthesis_request cfg (default (SPEAKER_ID cfg) speaker)
                       (JDict (settings_applied d (resolve sp pi it vo))))
          :: EvHttp (audio_query_request cfg text (default (SPEAKER_ID cfg) speaker))
          :: trace w
    /\ Forall not_request evs.
Proof.
  intros Hall H1 S1 D1.
  destruct (synthesize_after_query text (default (SPEAKER_ID cfg) speaker)
              (resolve sp pi it vo) w r1 d H1 S1 D1) as [r Hsyn].
  unfold speak_text. rewrite (check_ranges_pass T _ _ _ _ Hall).
  eapply (after_synthesis not_request); [exact Hsyn|reflexivity| |].
  - intros audio. apply only_adds_bind; [|intros _; apply only_adds_ret].
    unfold play. apply only_adds_bind.
    + apply only_adds_bind; [by apply only_adds_NamedTemporaryFile|]. intros f.
      apply only_adds_bind; [by apply only_adds_os_call|]. intros _. apply only_adds_ret.
    + intros path. apply only_adds_try_finally; [|by apply only_adds_os_call].
      apply only_adds_bind; [by apply only_adds_subprocess_run|]. intros _.
      apply only_adds_ret.
  - intros e. destruct (kind e); apply only_adds_ret.
Qed.

End SpeakerPath.

(** C9: no check is made on the speaker identifier.  For every integer
    [speaker], with voice parameters inside their intervals (and, for
    [save_audio], an output path that normalizes), the first thing both
    handlers do is send the audio-query request with [speaker] as its
    [speaker] parameter, and every request they send afterwards carries
    the same value.  When the query answer is a 2xx JSON object, the
    very next call of both handlers is the synthesis request, with
    [speaker] unchanged as its [speaker] parameter and the adjusted
    query as its body, and no other request follows. *)
Theorem speaker_id_is_forwarded
    T env cfg text output_path (speaker : Z) sp pi it vo out w :
  (forall p, in_domain p (value p (resolve sp pi it vo))) ->
  normalize_output_path output_path = Ok out ->
  let req1 := audio_query_request cfg text speaker in
  let saved := snd (save_audio T env cfg text output_path (Some speaker) sp pi it vo w) in
  let spoken := snd (speak_text T env cfg text (Some speaker) sp pi it vo w) in
  params req1 = [("text", JStr text); ("speaker", JInt speaker)]
  /\ (exists evs, trace saved = evs ++ EvHttp req1 :: trace w
                  /\ Forall (carries_speaker speaker) evs)
  /\ (exists evs, trace spoken = evs ++ EvHttp req1 :: trace w
                  /\ Forall (carries_speaker speaker) evs)
  /\ (forall r1 d,
        http_send env req1 (trace w) = Ok r1 ->
        success r1 ->
        decoded r1 = Ok (JDict d) ->
        let req2 := synthesis_request cfg speaker
                      (JDict (settings_applied d (resolve sp pi it vo))) in
        params req2 = [("speaker", JInt speaker)]
        /\ (exists evs, trace saved = evs ++ EvHttp req2 :: EvHttp req1 :: trace w
                        /\ Forall not_request evs)
        /\ (exists evs, trace spoken = evs ++ EvHttp req2 :: EvHttp req1 :: trace w
                        /\ Forall not_request evs)).
Proof.
  intros Hall Hout req1 saved spoken. subst req1 saved spoken.
  split; [reflexivity|]. split; [|split].
  - apply (save_audio_forwards T env cfg text output_path (Some speaker) sp pi it vo out
             Hall Hout w).
  - apply (speak_text_forwards T env cfg text (Some speaker) sp pi it vo Hall w).
  - intros r1 d H1 S1 D1 req2. subst req2. split; [reflexivity|]. split.
    + apply (save_audio_after_query T env cfg text output_path (Some speaker) sp pi it vo
               out w r1 d Hall Hout H1 S1 D1).
    + apply (speak_text_after_query T env cfg text (Some speaker) sp pi it vo
               w r1 d Hall H1 S1 D1).
Qed.

Lemma speaker_id_is_forwarded_witness :
  exists evs,
    trace (snd (save_audio Sample.text Sample.env Sample.cfg "こんにちは" "out.wav"
                           (Some (-12345678901234567890)) None None None None Sample.w0))
    = evs
      ++ [EvHttp (synthesis_request Sample.cfg (-12345678901234567890)
                    (JDict (settings_applied
                              [("speedScale", JFloat 1.0); ("kana", JStr "コンニチワ")]
                              (resolve None None None None))));
          EvHttp (audio_query_request Sample.cfg "こんにちは" (-12345678901234567890))]
    /\ Forall not_request evs.
Proof.
  destruct (speaker_id_is_forwarded Sample.text Sample.env Sample.cfg "こんにちは" "out.wav"
              (-12345678901234567890) None None None None (Path "out.wav") Sample.w0)
    as (_ & _ & _ & Hsynth).
  - intros p. destruct p; split; reflexivity.
  - reflexivity.
  - destruct (Hsynth
                (mkResponse 200 []
                   (Ok (JDict [("speedScale", JFloat 1.0); ("kana", JStr "コンニチワ")])))
                [("speedScale", JFloat 1.0); ("kana", JStr "コンニチワ")])
      as (_ & Hsave & _).
    + reflexivity.
    + unfold success. simpl. lia.
    + reflexivity.
    + exact Hsave.
Defined.
